(** * Gas Town control plane: a shallow embedding and its verified properties

    The development embeds four leaf components of the supervisory control
    plane and settles the specification's claims about them:

    - [Dedup]      internal/witness/dedup.go        (message deduplicator)
    - [MailDrain]  internal/cmd/mail_drain.go       (mail drainer)
    - [LogRot]     internal/daemon/log_rotation.go  (copy-truncate log rotation)
    - [Reaper]     the wisp reaper (retention engine), in its two revisions:
                   the step-structured one with [parentCheckWhere] and the
                   auto-close step, and internal/daemon/wisp_reaper.go.

    Conventions.  A [time.Time] is a [Z] (nanoseconds since the epoch) and a
    [time.Duration] is a [Z] (nanoseconds); Go's [int] counters are [Z];
    arithmetic on them is exact, the 64-bit range is never left.
    SQL tables are lists of rows, a statement is a function on the database
    value, and a statement whose table is absent returns an error.  Files are
    a finite map from paths to contents and modification times. *)

From Stdlib Require Import ZArith String List Ascii Bool Lia.
From Stdlib Require Floats.
From stdpp Require Import gmap strings list fin_maps pretty sorting.

Open Scope string_scope.
Open Scope Z_scope.

(* ===================================================================== *)
(** * Part I: definitions                                                 *)
(* ===================================================================== *)

(** ** Time *)

Module Time.

Definition Nanosecond : Z := 1.
Definition Second : Z := 1000000000 * Nanosecond.
Definition Minute : Z := 60 * Second.
Definition Hour : Z := 60 * Minute.

(** [t.Add(d)] *)
Definition Add (t d : Z) : Z := t + d.
(** [t.After(u)] and [t.Before(u)] *)
Definition After (t u : Z) : bool := u <? t.
Definition Before (t u : Z) : bool := t <? u.

End Time.

(** ** internal/witness/dedup.go *)

Module Dedup.

(** [MessageDeduplicator]; the mutex is not represented: every operation
    below is the body executed while the lock is held. *)
Record MessageDeduplicator := mkDedup {
  processed : gmap string bool;
  maxSize : Z
}.

Definition NewMessageDeduplicator (maxSize : Z) : MessageDeduplicator :=
  let maxSize := if maxSize <=? 0 then 10000 else maxSize in
  {| processed := ∅; maxSize := maxSize |}.

(** Go's [m[k]] on a [map[string]bool]: the zero value when [k] is absent. *)
Definition index (m : gmap string bool) (k : string) : bool :=
  default false (m !! k).

Definition AlreadyProcessed (messageID : string) (d : MessageDeduplicator)
  : bool * MessageDeduplicator :=
  if decide (messageID = "") then (false, d)
  else if index (processed d) messageID then (true, d)
  else (false, {| processed := <[messageID := true]> (processed d);
                  maxSize := maxSize d |}).

Definition Size (d : MessageDeduplicator) : nat := size (processed d).

(** A history of calls, threaded through the deduplicator. *)
Fixpoint calls (ids : list string) (d : MessageDeduplicator) : MessageDeduplicator :=
  match ids with
  | [] => d
  | id :: rest => calls rest (snd (AlreadyProcessed id d))
  end.

(** Every flag that the deduplicator holds is [true]: ids are recorded,
    never cleared. *)
Definition allTrue (d : MessageDeduplicator) : Prop :=
  forall id b, processed d !! id = Some b -> b = true.

End Dedup.

(** ** internal/cmd/mail_drain.go *)

Module MailDrain.

(** The fields of [mail.Message] that the drainer reads. *)
Record Message := mkMessage {
  ID : string;
  Subject : string;
  Timestamp : Z;
  Read : bool;
  Wisp : bool
}.

Definition drainableSubjects : list string :=
  [ "POLECAT_DONE"; "POLECAT_STARTED"; "LIFECYCLE:"; "MERGED";
    "MERGE_READY"; "MERGE_FAILED"; "SWARM_START" ].

(** [strings.HasPrefix(s, prefix)] *)
Definition HasPrefix (s prefix : string) : bool := String.prefix prefix s.

Fixpoint isDrainableMessage_loop (prefixes : list string) (subject : string) : bool :=
  match prefixes with
  | [] => false
  | prefix :: rest =>
      if HasPrefix subject prefix then true
      else isDrainableMessage_loop rest subject
  end.

Definition isDrainableMessage (subject : string) : bool :=
  isDrainableMessage_loop drainableSubjects subject.

Record drainCandidate := mkCandidate {
  Message_ : Message;
  Reason : string
}.

(** First loop of [runMailDrain]: protocol messages. *)
Fixpoint protocolPass (mailDrainAll : bool) (cutoff : Z) (messages : list Message)
  : list drainCandidate :=
  match messages with
  | [] => []
  | msg :: rest =>
      if negb (isDrainableMessage (Subject msg)) then
        protocolPass mailDrainAll cutoff rest
      else if negb mailDrainAll && Time.After (Timestamp msg) cutoff then
        protocolPass mailDrainAll cutoff rest
      else
        let reason := if Wisp msg then "wisp+protocol" else "protocol" in
        {| Message_ := msg; Reason := reason |}
          :: protocolPass mailDrainAll cutoff rest
  end.

(** Second loop of [runMailDrain]: read wisps that are not protocol messages. *)
Fixpoint readWispPass (mailDrainAll : bool) (cutoff : Z) (messages : list Message)
  : list drainCandidate :=
  match messages with
  | [] => []
  | msg :: rest =>
      if isDrainableMessage (Subject msg) then
        readWispPass mailDrainAll cutoff rest
      else if Wisp msg && Read msg
                && (mailDrainAll || Time.Before (Timestamp msg) cutoff) then
        {| Message_ := msg; Reason := "read-wisp" |}
          :: readWispPass mailDrainAll cutoff rest
      else readWispPass mailDrainAll cutoff rest
  end.

(** The candidate list after both loops (the second appends to the first). *)
Definition findCandidates (mailDrainAll : bool) (cutoff : Z) (messages : list Message)
  : list drainCandidate :=
  protocolPass mailDrainAll cutoff messages
    ++ readWispPass mailDrainAll cutoff messages.





(** What a run returns and leaves behind. *)
Inductive Outcome :=
| InvalidMaxAge                       (* error: invalid --max-age *)
| NoMailbox                           (* error from getMailbox *)
| InboxEmpty                          (* nil: nothing to drain *)
| NoCandidates                        (* nil: no drainable messages *)
| DryRun (cs : list drainCandidate)   (* nil: candidates printed only *)
| Drained (archived : Z) (archiveErrors : list string).
                                      (* nil iff archiveErrors is empty *)

Definition returnsError (o : Outcome) : bool :=
  match o with
  | InvalidMaxAge | NoMailbox => true
  | InboxEmpty | NoCandidates | DryRun _ => false
  | Drained _ errs => negb (Nat.eqb (length errs) 0)
  end.


Section Run.

(** [time.ParseDuration], [detectSender] and the mailbox store behind
    [getMailbox] are the environment of the command. *)
Variable ParseDuration : string -> option Z.
Variable detectSender : string.



End Run.

(** The specification's wording of the selection rule, kept apart from the
    code: drainable and (--all or age above the threshold), or a read wisp
    whose age is above the threshold.  The age of a message is
    [now - Timestamp]. *)
Definition age (now : Z) (msg : Message) : Z := now - Timestamp msg.






End MailDrain.

(** ** internal/daemon/log_rotation.go *)

Module LogRot.

(** [logRotationMaxSize]: 100MB, in bytes. *)
Definition logRotationMaxSize : Z := 100 * 1024 * 1024.

(** [logRotationMaxBackups] *)
Definition logRotationMaxBackups : nat := 3.

(** A regular file: its bytes and its modification time. *)
Record File := mkFile {
  data : string;
  modTime : Z
}.

(** [info.Size()] *)
Definition Size (f : File) : Z := Z.of_nat (String.length (data f)).

(** An entry returned by [os.ReadDir]. *)
Record DirEntry := mkDirEntry {
  Name : string;
  IsDir : bool
}.

(** The file system: regular files by path, and the listing of each
    directory that can be read. *)
Record FS := mkFS {
  files : gmap string File;
  listing : gmap string (list DirEntry)
}.

Definition withFiles (fs : FS) (m : gmap string File) : FS :=
  {| files := m; listing := listing fs |}.

(** [os.Stat]: [None] stands for the not-exist error. *)
Definition Stat (fs : FS) (path : string) : option File := files fs !! path.

(** [os.Remove]; the callers ignore its error. *)
Definition Remove (path : string) (fs : FS) : FS :=
  withFiles fs (delete path (files fs)).

(** [os.Rename]: the file keeps its modification time and replaces the
    target; a missing source is an error, which the callers ignore. *)
Definition Rename (old new : string) (fs : FS) : FS :=
  match files fs !! old with
  | None => fs
  | Some f => withFiles fs (<[new := f]> (delete old (files fs)))
  end.

(** [os.Truncate(path, 0)] *)
Definition Truncate0 (now : Z) (path : string) (fs : FS) : option FS :=
  match files fs !! path with
  | None => None
  | Some _ => Some (withFiles fs (<[path := {| data := ""; modTime := now |}]> (files fs)))
  end.

(** [filepath.Join] on clean, non-empty components. *)
Definition Join (dir name : string) : string := dir +:+ "/" +:+ name.

(** [fmt.Sprintf("%s.%d.gz", logPath, i)] *)
Definition backupName (logPath : string) (i : nat) : string :=
  logPath +:+ "." +:+ pretty i +:+ ".gz".

(** *** Matching [<logPath>.*.gz]

    [filepath.Glob(filepath.Join(dir, base + ".*.gz"))] for a [logPath] free
    of pattern metacharacters: the star stands for any run of characters
    other than the path separator. *)

Fixpoint dropPrefix (n : nat) (s : string) : string :=
  match n, s with
  | O, _ => s
  | S n', String _ s' => dropPrefix n' s'
  | S _, EmptyString => EmptyString
  end.

Fixpoint hasSeparator (s : string) : bool :=
  match s with
  | EmptyString => false
  | String c s' => Ascii.eqb c "/"%char || hasSeparator s'
  end.

Fixpoint hasSuffix (s suffix : string) : bool :=
  String.eqb s suffix ||
  match s with
  | EmptyString => false
  | String _ s' => hasSuffix s' suffix
  end.

Definition globMatch (logPath p : string) : bool :=
  String.prefix (logPath +:+ ".") p &&
  (let rest := dropPrefix (String.length (logPath +:+ ".")) p in
   hasSuffix rest ".gz" && negb (hasSeparator rest)).

(** Insertion sort as [sort.Slice] runs it on a slice of at most twelve
    elements: each element in turn moves left while it is less than its
    left neighbour, so equal elements keep their order. *)
Fixpoint insertLeft {A} (less : A -> A -> bool) (x : A) (revPrefix : list A) : list A :=
  match revPrefix with
  | [] => [x]
  | p :: ps => if less x p then p :: insertLeft less x ps else x :: revPrefix
  end.

Definition sortBy {A} (less : A -> A -> bool) (l : list A) : list A :=
  rev (fold_left (fun revPrefix x => insertLeft less x revPrefix) l []).

(** The matches of the glob, in lexical order as [Glob] returns them. *)
Definition Glob (fs : FS) (logPath : string) : list string :=
  sortBy String.ltb (filter (fun p => globMatch logPath p = true)
                            (map_to_list (files fs)).*1).

(** The comparison given to [sort.Slice]: false when either stat fails. *)
Definition olderThan (fs : FS) (a b : string) : bool :=
  match Stat fs a, Stat fs b with
  | Some fi, Some fj => Time.Before (modTime fi) (modTime fj)
  | _, _ => false
  end.

Fixpoint removeAll (paths : list string) (fs : FS) : FS :=
  match paths with
  | [] => fs
  | p :: rest => removeAll rest (Remove p fs)
  end.

(** [cleanOldRotations] *)
Definition cleanOldRotations (logPath : string) (fs : FS) : FS :=
  let matches := Glob fs logPath in
  if (length matches <=? logRotationMaxBackups)%nat then fs
  else
    let sorted := sortBy (olderThan fs) matches in
    removeAll (firstn (length matches - logRotationMaxBackups) sorted) fs.

(** The shift loop of [copyTruncateRotate], [i] counting down to 1. *)
Fixpoint shiftRotations (i : nat) (logPath : string) (fs : FS) : FS :=
  match i with
  | O => fs
  | S j =>
      let old := backupName logPath i in
      let fs' :=
        if (i =? logRotationMaxBackups)%nat then Remove old fs
        else Rename old (backupName logPath (i + 1)) fs in
      shiftRotations j logPath fs'
  end.

Inductive RotateError :=
| ErrCompress (dst : string)
| ErrTruncate (path : string).

Section Gzip.

(** The gzip encoder behind [gzip.NewWriter]. *)
Variable gzip : string -> string.

(** [compressFile]: [None] is the error of [os.Open]. *)
Definition compressFile (now : Z) (src dst : string) (fs : FS) : option FS :=
  match files fs !! src with
  | None => None
  | Some f =>
      Some (withFiles fs (<[dst := {| data := gzip (data f); modTime := now |}]> (files fs)))
  end.

(** [copyTruncateRotate]: the file system afterwards and the error, if any. *)
Definition copyTruncateRotate (now : Z) (logPath : string) (fs : FS)
  : FS * option RotateError :=
  let fs1 := shiftRotations logRotationMaxBackups logPath fs in
  let dst := logPath +:+ ".1.gz" in
  match compressFile now logPath dst fs1 with
  | None => (fs1, Some (ErrCompress dst))
  | Some fs2 =>
      match Truncate0 now logPath fs2 with
      | None => (fs2, Some (ErrTruncate logPath))
      | Some fs3 => (cleanOldRotations logPath fs3, None)
      end
  end.

(** [collectDoltLogFiles] *)
Fixpoint collectDaemonLogs (fs : FS) (daemonDir : string) (names : list string)
  : list string :=
  match names with
  | [] => []
  | name :: rest =>
      let path := Join daemonDir name in
      match Stat fs path with
      | Some _ => path :: collectDaemonLogs fs daemonDir rest
      | None => collectDaemonLogs fs daemonDir rest
      end
  end.

Fixpoint collectRigLogs (fs : FS) (townRoot : string) (entries : list DirEntry)
  : list string :=
  match entries with
  | [] => []
  | entry :: rest =>
      if negb (IsDir entry) || String.prefix "." (Name entry)
         || String.eqb (Name entry) "daemon"
      then collectRigLogs fs townRoot rest
      else
        let rigLog :=
          Join (Join (Join townRoot (Name entry)) ".beads") "dolt-server.log" in
        let mayorRigLog :=
          Join (Join (Join (Join townRoot (Name entry)) "rig") ".beads")
               "dolt-server.log" in
        (match Stat fs rigLog with Some _ => [rigLog] | None => [] end)
          ++ (match Stat fs mayorRigLog with Some _ => [mayorRigLog] | None => [] end)
          ++ collectRigLogs fs townRoot rest
  end.

Definition collectDoltLogFiles (fs : FS) (daemonDir townRoot : string) : list string :=
  let logFiles :=
    collectDaemonLogs fs daemonDir ["dolt.log"; "dolt-server.log"; "dolt-test-server.log"] in
  match listing fs !! townRoot with
  | None => logFiles
  | Some entries => logFiles ++ collectRigLogs fs townRoot entries
  end.

Record RotateLogsResult := mkResult {
  Rotated : list string;
  Skipped : list string;
  Errors : list string
}.

Definition emptyResult : RotateLogsResult :=
  {| Rotated := []; Skipped := []; Errors := [] |}.

(** The loop shared by [RotateLogs] and [ForceRotateLogs]; [skip] is the
    size test that sends a file to [Skipped]. *)
Fixpoint rotateLoop (skip : Z -> bool) (now : Z) (logFiles : list string)
  (fs : FS) (result : RotateLogsResult) : FS * RotateLogsResult :=
  match logFiles with
  | [] => (fs, result)
  | logPath :: rest =>
      match Stat fs logPath with
      | None => rotateLoop skip now rest fs result
      | Some info =>
          if skip (Size info) then
            rotateLoop skip now rest fs
              {| Rotated := Rotated result;
                 Skipped := Skipped result ++ [logPath];
                 Errors := Errors result |}
          else
            match copyTruncateRotate now logPath fs with
            | (fs', Some _) =>
                rotateLoop skip now rest fs'
                  {| Rotated := Rotated result;
                     Skipped := Skipped result;
                     Errors := Errors result ++ [logPath] |}
            | (fs', None) =>
                rotateLoop skip now rest fs'
                  {| Rotated := Rotated result ++ [logPath];
                     Skipped := Skipped result;
                     Errors := Errors result |}
            end
      end
  end.

Definition RotateLogs (now : Z) (townRoot : string) (fs : FS) : FS * RotateLogsResult :=
  let daemonDir := Join townRoot "daemon" in
  let logFiles := collectDoltLogFiles fs daemonDir townRoot in
  rotateLoop (fun size => size <? logRotationMaxSize) now logFiles fs emptyResult.

Definition ForceRotateLogs (now : Z) (townRoot : string) (fs : FS) : FS * RotateLogsResult :=
  let daemonDir := Join townRoot "daemon" in
  let logFiles := collectDoltLogFiles fs daemonDir townRoot in
  rotateLoop (fun size => size =? 0) now logFiles fs emptyResult.

(** The process that holds the log open appends [data] to it. *)
Definition appendLog (now : Z) (path data : string) (fs : FS) : FS :=
  let old := match files fs !! path with Some f => LogRot.data f | None => "" end in
  withFiles fs (<[path := {| data := old +:+ data; modTime := now |}]> (files fs)).

(** Successive rotations of one log: in each round the log grows by the
    given bytes and is then rotated; the first error ends the rounds. *)
Fixpoint rotateRounds (rounds : list (Z * string)) (logPath : string) (fs : FS)
  : FS * option RotateError :=
  match rounds with
  | [] => (fs, None)
  | (now, written) :: rest =>
      match copyTruncateRotate now logPath (appendLog now logPath written fs) with
      | (fs', None) => rotateRounds rest logPath fs'
      | (fs', Some e) => (fs', Some e)
      end
  end.

End Gzip.

(** Every file matching the glob of [logPath] is one of the numbered
    backups 1 .. [logRotationMaxBackups]. *)
Definition onlyNumberedBackups (logPath : string) (fs : FS) : Prop :=
  forall p, globMatch logPath p = true -> is_Some (files fs !! p) ->
    p = backupName logPath 1 \/ p = backupName logPath 2 \/ p = backupName logPath 3.

Definition exists_ (fs : FS) (path : string) : Prop := is_Some (files fs !! path).


(** The modification time that the comparison of [cleanOldRotations] reads
    for a path. *)
Definition mtime (fs : FS) (q : string) : Z :=
  match Stat fs q with Some f => modTime f | None => 0 end.

End LogRot.

(** ** The wisp reaper (retention engine) *)

Module Reaper.

(** *** Constants *)

Definition defaultWispReaperInterval : Z := 30 * Time.Minute.
Definition wispReaperQueryTimeout : Z := 30 * Time.Second.
Definition defaultWispMaxAge : Z := 24 * Time.Hour.
Definition defaultWispDeleteAge : Z := 7 * 24 * Time.Hour.
Definition wispAlertThreshold : Z := 500.
Definition defaultMailDeleteAge : Z := 7 * 24 * Time.Hour.
Definition defaultStaleIssueAge : Z := 30 * 24 * Time.Hour.
Definition deleteBatchSize : nat := 100.

(** *** Rows and tables *)

Record Wisp := mkWisp {
  w_id : string;
  w_status : string;
  w_created_at : Z;
  w_closed_at : option Z;          (* NULL while not closed *)
  w_wisp_type : option string
}.

(** A row of [wisp_dependencies] or of [dependencies]. *)
Record Dependency := mkDep {
  d_issue_id : string;
  d_depends_on_id : string;
  d_type : string
}.

(** A row of a label, comment or event table: the owning id and the rest
    of the row (the label itself, for [labels] and [wisp_labels]). *)
Record AuxRow := mkAux {
  a_issue_id : string;
  a_value : string
}.

Record Issue := mkIssue {
  i_id : string;
  i_status : string;
  i_updated_at : Z;
  i_closed_at : option Z;
  i_priority : Z;
  i_issue_type : string
}.

#[global] Instance Wisp_eq_dec : EqDecision Wisp.
Proof. solve_decision. Defined.

#[global] Instance Issue_eq_dec : EqDecision Issue.
Proof. solve_decision. Defined.

(** One Dolt database.  A table that the database lacks is [None]; a
    statement that names it fails.  [commits] records the messages given to
    [CALL DOLT_COMMIT], newest last. *)
Record Database := mkDB {
  wisps : option (list Wisp);
  wisp_dependencies : option (list Dependency);
  wisp_labels : option (list AuxRow);
  wisp_comments : option (list AuxRow);
  wisp_events : option (list AuxRow);
  issues : option (list Issue);
  dependencies : option (list Dependency);
  labels : option (list AuxRow);
  comments : option (list AuxRow);
  events : option (list AuxRow);
  commits : list string
}.

Definition setWisps (ws : list Wisp) (db : Database) : Database :=
  {| wisps := Some ws; wisp_dependencies := wisp_dependencies db;
     wisp_labels := wisp_labels db; wisp_comments := wisp_comments db;
     wisp_events := wisp_events db; issues := issues db;
     dependencies := dependencies db; labels := labels db;
     comments := comments db; events := events db; commits := commits db |}.

Definition setIssues (is_ : list Issue) (db : Database) : Database :=
  {| wisps := wisps db; wisp_dependencies := wisp_dependencies db;
     wisp_labels := wisp_labels db; wisp_comments := wisp_comments db;
     wisp_events := wisp_events db; issues := Some is_;
     dependencies := dependencies db; labels := labels db;
     comments := comments db; events := events db; commits := commits db |}.

(** [CALL DOLT_COMMIT('-Am', msg)] *)
Definition doltCommit (msg : string) (db : Database) : Database :=
  {| wisps := wisps db; wisp_dependencies := wisp_dependencies db;
     wisp_labels := wisp_labels db; wisp_comments := wisp_comments db;
     wisp_events := wisp_events db; issues := issues db;
     dependencies := dependencies db; labels := labels db;
     comments := comments db; events := events db;
     commits := commits db ++ [msg] |}.

(** The auxiliary tables that [batchDeleteRows] is given by name. *)
Inductive AuxTable :=
| T_wisp_labels | T_wisp_comments | T_wisp_events | T_wisp_dependencies
| T_labels | T_comments | T_events | T_dependencies.

Inductive PrimaryTable := T_wisps | T_issues.

(** [id IN (...)] *)
Definition inIds (ids : list string) (id : string) : bool :=
  existsb (String.eqb id) ids.

Definition keepAux (ids : list string) (t : list AuxRow) : list AuxRow :=
  filter (fun r => inIds ids (a_issue_id r) = false) t.

Definition keepDeps (ids : list string) (t : list Dependency) : list Dependency :=
  filter (fun r => inIds ids (d_issue_id r) = false) t.

(** [DELETE FROM tbl WHERE issue_id IN ids]; [None] when the table is absent. *)
Definition deleteAux (tbl : AuxTable) (ids : list string) (db : Database)
  : option Database :=
  let upd (ws_deps : option (list Dependency)) (ws_l ws_c ws_e : option (list AuxRow))
          (deps : option (list Dependency)) (l c e : option (list AuxRow)) :=
    {| wisps := wisps db; wisp_dependencies := ws_deps;
       wisp_labels := ws_l; wisp_comments := ws_c; wisp_events := ws_e;
       issues := issues db; dependencies := deps; labels := l;
       comments := c; events := e; commits := commits db |} in
  let k := keepAux ids in
  match tbl with
  | T_wisp_labels =>
      t ← wisp_labels db;
      Some (upd (wisp_dependencies db) (Some (k t)) (wisp_comments db) (wisp_events db)
                (dependencies db) (labels db) (comments db) (events db))
  | T_wisp_comments =>
      t ← wisp_comments db;
      Some (upd (wisp_dependencies db) (wisp_labels db) (Some (k t)) (wisp_events db)
                (dependencies db) (labels db) (comments db) (events db))
  | T_wisp_events =>
      t ← wisp_events db;
      Some (upd (wisp_dependencies db) (wisp_labels db) (wisp_comments db) (Some (k t))
                (dependencies db) (labels db) (comments db) (events db))
  | T_wisp_dependencies =>
      t ← wisp_dependencies db;
      Some (upd (Some (keepDeps ids t)) (wisp_labels db) (wisp_comments db) (wisp_events db)
                (dependencies db) (labels db) (comments db) (events db))
  | T_labels =>
      t ← labels db;
      Some (upd (wisp_dependencies db) (wisp_labels db) (wisp_comments db) (wisp_events db)
                (dependencies db) (Some (k t)) (comments db) (events db))
  | T_comments =>
      t ← comments db;
      Some (upd (wisp_dependencies db) (wisp_labels db) (wisp_comments db) (wisp_events db)
                (dependencies db) (labels db) (Some (k t)) (events db))
  | T_events =>
      t ← events db;
      Some (upd (wisp_dependencies db) (wisp_labels db) (wisp_comments db) (wisp_events db)
                (dependencies db) (labels db) (comments db) (Some (k t)))
  | T_dependencies =>
      t ← dependencies db;
      Some (upd (wisp_dependencies db) (wisp_labels db) (wisp_comments db) (wisp_events db)
                (Some (keepDeps ids t)) (labels db) (comments db) (events db))
  end.

(** [DELETE FROM tbl WHERE id IN ids]: the database and the rows affected. *)
Definition deletePrimary (tbl : PrimaryTable) (ids : list string) (db : Database)
  : option (Database * Z) :=
  match tbl with
  | T_wisps =>
      ws ← wisps db;
      let kept := filter (fun w => inIds ids (w_id w) = false) ws in
      Some (setWisps kept db, Z.of_nat (length ws - length kept))
  | T_issues =>
      is_ ← issues db;
      let kept := filter (fun i => inIds ids (i_id i) = false) is_ in
      Some (setIssues kept db, Z.of_nat (length is_ - length kept))
  end.

(** [COUNT( * )] of the rows satisfying a condition. *)
Definition countWhere {A} (cond : A -> bool) (t : list A) : Z :=
  Z.of_nat (length (filter (fun r => cond r = true) t)).

(** *** The SQL conditions *)

Definition isParentChildOf (w : Wisp) (wd : Dependency) : bool :=
  String.eqb (d_issue_id wd) (w_id w) && String.eqb (d_type wd) "parent-child".

(** [parentCheckWhere]: no parent-child row for the wisp, or a parent-child
    row whose parent wisp is closed. *)
Definition parentCheckWhere (wds : list Dependency) (ws : list Wisp) (w : Wisp) : bool :=
  negb (existsb (isParentChildOf w) wds)
  || existsb (fun wd =>
        isParentChildOf w wd
        && existsb (fun parent =>
              String.eqb (w_id parent) (d_depends_on_id wd)
              && String.eqb (w_status parent) "closed") ws) wds.

(** [status IN ('open', 'hooked', 'in_progress')] *)
Definition wispIsOpen (w : Wisp) : bool :=
  String.eqb (w_status w) "open" || String.eqb (w_status w) "hooked"
  || String.eqb (w_status w) "in_progress".

(** A comparison with a NULL is not true. *)
Definition ltNullable (t : option Z) (cutoff : Z) : bool :=
  match t with
  | Some v => v <? cutoff
  | None => false
  end.

(** The [whereClause] of [reapWispsInDB]. *)
Definition reapWhere (cutoff : Z) (wds : list Dependency) (ws : list Wisp) (w : Wisp) : bool :=
  wispIsOpen w && (w_created_at w <? cutoff) && parentCheckWhere wds ws w.

(** The condition of the digest and of the id query in [purgeClosedWispsInDB]. *)
Definition purgeWhere (deleteCutoff : Z) (wds : list Dependency) (ws : list Wisp) (w : Wisp) : bool :=
  String.eqb (w_status w) "closed" && ltNullable (w_closed_at w) deleteCutoff
  && parentCheckWhere wds ws w.

(** [status IN ('open', 'in_progress')] on issues. *)
Definition issueIsOpen (i : Issue) : bool :=
  String.eqb (i_status i) "open" || String.eqb (i_status i) "in_progress".

(** The first subquery of the stale-issue statement: ids that depend on an
    open issue. *)
Definition dependsOnOpen (deps : list Dependency) (is_ : list Issue) : list string :=
  map d_issue_id
    (filter (fun d => existsb (fun dep => String.eqb (d_depends_on_id d) (i_id dep)
                                          && issueIsOpen dep) is_ = true) deps).

(** The second subquery: ids that an open issue depends on. *)
Definition blocksOpen (deps : list Dependency) (is_ : list Issue) : list string :=
  map d_depends_on_id
    (filter (fun d => existsb (fun blocker => String.eqb (d_issue_id d) (i_id blocker)
                                              && issueIsOpen blocker) is_ = true) deps).

(** The condition of [autoCloseStaleIssuesInDB], count and update alike. *)
Definition staleWhere (staleCutoff : Z) (deps : list Dependency) (is_ : list Issue)
  (i : Issue) : bool :=
  issueIsOpen i && (i_updated_at i <? staleCutoff) && (1 <? i_priority i)
  && negb (String.eqb (i_issue_type i) "epic")
  && negb (inIds (dependsOnOpen deps is_) (i_id i))
  && negb (inIds (blocksOpen deps is_) (i_id i)).

(** [label = 'gt:message'] rows of an issue. *)
Definition isMessageLabelOf (i : Issue) (l : AuxRow) : bool :=
  String.eqb (i_id i) (a_issue_id l) && String.eqb (a_value l) "gt:message".

Definition mailStatusAge (mailCutoff : Z) (i : Issue) : bool :=
  String.eqb (i_status i) "closed" && ltNullable (i_closed_at i) mailCutoff.

(** The condition of the count query of [purgeOldMailInDB]. *)
Definition mailWhere (mailCutoff : Z) (ls : list AuxRow) (i : Issue) : bool :=
  mailStatusAge mailCutoff i
  && inIds (map a_issue_id (filter (fun l => String.eqb (a_value l) "gt:message" = true) ls))
           (i_id i).

(** *** The conditions, in words

    The predicates below restate what the SQL conditions decide; the
    properties of Part II are phrased with them. *)

(** The wisp has no parent-child row in [wisp_dependencies]. *)
Definition noParentRow (wds : list Dependency) (w : Wisp) : Prop :=
  forall wd, wd ∈ wds -> isParentChildOf w wd = false.

(** Some parent-child row of the wisp leads to a wisp with status closed. *)
Definition closedParent (wds : list Dependency) (ws : list Wisp) (w : Wisp) : Prop :=
  exists wd parent,
    wd ∈ wds /\ isParentChildOf w wd = true
    /\ parent ∈ ws /\ w_id parent = d_depends_on_id wd
    /\ w_status parent = "closed".

(** The wisp has a parent, and no parent of it is closed: its tracked work
    is still in progress. *)
Definition parentStillOpen (wds : list Dependency) (ws : list Wisp) (w : Wisp) : Prop :=
  (exists wd, wd ∈ wds /\ isParentChildOf w wd = true)
  /\ forall wd parent,
       wd ∈ wds -> isParentChildOf w wd = true ->
       parent ∈ ws -> w_id parent = d_depends_on_id wd ->
       w_status parent <> "closed".

(** No open or in-progress issue depends on [i] or is depended on by [i]. *)
Definition noActiveDependency (deps : list Dependency) (is_ : list Issue) (i : Issue) : Prop :=
  forall d j,
    d ∈ deps -> j ∈ is_ -> issueIsOpen j = true ->
    ~ (d_issue_id d = i_id i /\ d_depends_on_id d = i_id j)
    /\ ~ (d_depends_on_id d = i_id i /\ d_issue_id d = i_id j).

(** The issue carries the label [gt:message]. *)
Definition isMail (ls : list AuxRow) (i : Issue) : Prop :=
  exists l, l ∈ ls /\ a_issue_id l = i_id i /\ a_value l = "gt:message".

(** The tables of a database that hold wisps and what hangs off them. *)
Definition wispTables (db : Database) :=
  (wisps db, wisp_dependencies db, wisp_labels db, wisp_comments db, wisp_events db).

(** The tables that hold issues and what hangs off them. *)
Definition issueTables (db : Database) :=
  (issues db, dependencies db, labels db, comments db, events db).

(** *** Per-database steps

    The Dolt server is a finite map from database names to databases; a
    statement sent to a name the server does not have fails.  The session
    variable [@@autocommit] is switched off and back on around every writing
    step and is not represented.  Each function returns the server as it
    leaves it, the counts, and the error ([None] for nil). *)

Abbreviation Server := (gmap string Database).

(** [fmt.Sprintf] of the commit messages. *)
Definition reapCommitMsg (reaped : Z) (dbName : string) : string :=
  "reaper: close " +:+ pretty reaped +:+ " stale wisps in " +:+ dbName.
Definition purgeCommitMsg (n : Z) (dbName : string) : string :=
  "reaper: purge " +:+ pretty n +:+ " closed wisps from " +:+ dbName.
Definition mailCommitMsg (n : Z) (dbName : string) : string :=
  "reaper: purge " +:+ pretty n +:+ " old mail from " +:+ dbName.
Definition autoCloseCommitMsg (n : Z) (dbName : string) : string :=
  "reaper: auto-close " +:+ pretty n +:+ " stale issues in " +:+ dbName.

(** [SET w.status='closed', w.closed_at=NOW()] *)
Definition closeWisp (sqlNow : Z) (w : Wisp) : Wisp :=
  {| w_id := w_id w; w_status := "closed"; w_created_at := w_created_at w;
     w_closed_at := Some sqlNow; w_wisp_type := w_wisp_type w |}.

Definition closeIssue (sqlNow : Z) (i : Issue) : Issue :=
  {| i_id := i_id i; i_status := "closed"; i_updated_at := i_updated_at i;
     i_closed_at := Some sqlNow; i_priority := i_priority i;
     i_issue_type := i_issue_type i |}.

(** [UPDATE ... SET ... WHERE cond]: every row is tested against the table
    as it stands before the statement. *)
Definition updateWhere {A} (cond : A -> bool) (set : A -> A) (t : list A) : list A :=
  map (fun r => if cond r then set r else r) t.

(** [reapWispsInDB] *)
Definition reapWispsInDB (sqlNow : Z) (srv : Server) (dbName : string)
  (cutoff : Z) (dryRun : bool) : Server * (Z * Z * option string) :=
  match srv !! dbName with
  | None =>
      (srv, (0, 0, Some (if dryRun then "dry-run count stale wisps" else "disable autocommit")))
  | Some db =>
      match wisps db, wisp_dependencies db with
      | Some ws, Some wds =>
          let whereClause := reapWhere cutoff wds ws in
          if dryRun then
            let wouldReap := countWhere whereClause ws in
            let openCount := countWhere wispIsOpen ws in
            (srv, (wouldReap, openCount, None))
          else
            let reaped := countWhere whereClause ws in
            let db1 := setWisps (updateWhere whereClause (closeWisp sqlNow) ws) db in
            let db2 :=
              if 0 <? reaped then doltCommit (reapCommitMsg reaped dbName) db1
              else db1 in
            let openCount := countWhere wispIsOpen (default [] (wisps db2)) in
            (<[dbName := db2]> srv, (reaped, openCount, None))
      | _, _ =>
          (srv, (0, 0, Some (if dryRun then "dry-run count stale wisps" else "close stale wisps")))
      end
  end.

(** The digest: eligible closed wisps counted by
    [COALESCE(w.wisp_type, 'unknown')]. *)
Fixpoint digestAdd (wtype : string) (groups : list (string * Z)) : list (string * Z) :=
  match groups with
  | [] => [(wtype, 1)]
  | (t, cnt) :: rest =>
      if String.eqb t wtype then (t, cnt + 1) :: rest
      else (t, cnt) :: digestAdd wtype rest
  end.

Definition digestQuery (cond : Wisp -> bool) (ws : list Wisp) : list (string * Z) :=
  fold_left (fun groups w =>
               if cond w then digestAdd (default "unknown" (w_wisp_type w)) groups
               else groups) ws [].

Definition digestSum (groups : list (string * Z)) : Z :=
  fold_left (fun total g => total + snd g) groups 0.

(** The auxiliary deletes of one batch: a failure is logged and skipped. *)
Fixpoint deleteAuxTables (auxTables : list AuxTable) (ids : list string) (db : Database)
  : Database :=
  match auxTables with
  | [] => db
  | tbl :: rest =>
      match deleteAux tbl ids db with
      | Some db' => deleteAuxTables rest ids db'
      | None => deleteAuxTables rest ids db
      end
  end.

(** [batchDeleteRows].  [idQuery] is the id query with its [LIMIT]; [budget]
    is the number of batches that the two-minute deadline of the context
    lets through: when it is used up the next SELECT fails. *)
Fixpoint batchDeleteRows (budget : nat) (idQuery : Database -> option (list string))
  (primaryTable : PrimaryTable) (auxTables : list AuxTable)
  (db : Database) (totalDeleted : Z) : Database * Z * option string :=
  match budget with
  | O => (db, totalDeleted, Some "select batch: context deadline exceeded")
  | S budget' =>
      match idQuery db with
      | None => (db, totalDeleted, Some "select batch")
      | Some ids =>
          if Nat.eqb (length ids) 0 then (db, totalDeleted, None)
          else
            let db1 := deleteAuxTables auxTables ids db in
            match deletePrimary primaryTable ids db1 with
            | None => (db1, totalDeleted, Some "delete batch")
            | Some (db2, affected) =>
                batchDeleteRows budget' idQuery primaryTable auxTables db2
                                (totalDeleted + affected)
            end
      end
  end.

(** The id query of the wisp purge. *)
Definition wispIdQuery (deleteCutoff : Z) (db : Database) : option (list string) :=
  ws ← wisps db;
  wds ← wisp_dependencies db;
  Some (firstn deleteBatchSize (map w_id (filter (fun w => purgeWhere deleteCutoff wds ws w = true) ws))).

(** [purgeClosedWispsInDB] *)
Definition purgeClosedWispsInDB (budget : nat) (srv : Server) (dbName : string)
  (deleteCutoff : Z) (dryRun : bool) : Server * (Z * option string) :=
  match srv !! dbName with
  | None => (srv, (0, Some "digest query"))
  | Some db =>
      match wisps db, wisp_dependencies db with
      | Some ws, Some wds =>
          let digest := digestQuery (purgeWhere deleteCutoff wds ws) ws in
          let digestTotal := digestSum digest in
          if digestTotal =? 0 then (srv, (0, None))
          else if dryRun then (srv, (digestTotal, None))
          else
            let auxTables :=
              [T_wisp_labels; T_wisp_comments; T_wisp_events; T_wisp_dependencies] in
            match batchDeleteRows budget (wispIdQuery deleteCutoff) T_wisps auxTables db 0 with
            | (db1, totalDeleted, Some err) => (<[dbName := db1]> srv, (totalDeleted, Some err))
            | (db1, totalDeleted, None) =>
                let db2 :=
                  if 0 <? totalDeleted
                  then doltCommit (purgeCommitMsg totalDeleted dbName) db1
                  else db1 in
                (<[dbName := db2]> srv, (totalDeleted, None))
            end
      | _, _ => (srv, (0, Some "digest query"))
      end
  end.

(** The id query of the mail purge: issues joined with their
    [gt:message] label rows. *)
Definition mailIdQuery (mailCutoff : Z) (db : Database) : option (list string) :=
  is_ ← issues db;
  ls ← labels db;
  Some (firstn deleteBatchSize
          (flat_map (fun i =>
                       if mailStatusAge mailCutoff i
                       then map (fun _ => i_id i)
                                (filter (fun l => isMessageLabelOf i l = true) ls)
                       else []) is_)).

(** [purgeOldMailInDB]: it has no dry-run parameter. *)
Definition purgeOldMailInDB (budget : nat) (srv : Server) (dbName : string)
  (mailCutoff : Z) : Server * (Z * option string) :=
  match srv !! dbName with
  | None => (srv, (0, Some "count mail"))
  | Some db =>
      match issues db, labels db with
      | Some is_, Some ls =>
          let count := countWhere (mailWhere mailCutoff ls) is_ in
          if count =? 0 then (srv, (0, None))
          else
            let auxTables := [T_labels; T_comments; T_events; T_dependencies] in
            match batchDeleteRows budget (mailIdQuery mailCutoff) T_issues auxTables db 0 with
            | (db1, totalDeleted, Some err) => (<[dbName := db1]> srv, (totalDeleted, Some err))
            | (db1, totalDeleted, None) =>
                let db2 :=
                  if 0 <? totalDeleted
                  then doltCommit (mailCommitMsg totalDeleted dbName) db1
                  else db1 in
                (<[dbName := db2]> srv, (totalDeleted, None))
            end
      | _, _ => (srv, (0, Some "count mail"))
      end
  end.

(** [autoCloseStaleIssuesInDB] *)
Definition autoCloseStaleIssuesInDB (sqlNow : Z) (srv : Server) (dbName : string)
  (staleCutoff : Z) (dryRun : bool) : Server * (Z * option string) :=
  match srv !! dbName with
  | None => (srv, (0, Some "count stale issues"))
  | Some db =>
      match issues db, dependencies db with
      | Some is_, Some deps =>
          let count := countWhere (staleWhere staleCutoff deps is_) is_ in
          if count =? 0 then (srv, (0, None))
          else if dryRun then (srv, (count, None))
          else
            let closed := countWhere (staleWhere staleCutoff deps is_) is_ in
            let db1 :=
              setIssues (updateWhere (staleWhere staleCutoff deps is_) (closeIssue sqlNow) is_) db in
            let db2 :=
              if 0 <? closed then doltCommit (autoCloseCommitMsg closed dbName) db1
              else db1 in
            (<[dbName := db2]> srv, (closed, None))
      | _, _ => (srv, (0, Some "count stale issues"))
      end
  end.

(** *** Configuration *)

Record WispReaperConfig := mkConfig {
  Enabled : bool;
  DryRun : bool;
  IntervalStr : string;
  MaxAgeStr : string;
  DeleteAgeStr : string;
  Databases : list string
}.

(** The patrol blocks other than the reaper's play no part here. *)
Record PatrolsConfig := mkPatrols {
  WispReaper : option WispReaperConfig
}.

Record DaemonPatrolConfig := mkDaemonConfig {
  Patrols : option PatrolsConfig
}.

(** Modelled from the spec: [IsPatrolEnabled], declared elsewhere in package
    daemon.  "A patrol runs iff its config block exists AND enabled: true.
    A nil patrols config means all patrols are disabled." *)
Definition IsPatrolEnabled_wisp_reaper (config : option DaemonPatrolConfig) : bool :=
  match config with
  | Some {| Patrols := Some {| WispReaper := Some c |} |} => Enabled c
  | _ => false
  end.

(** Modelled from the spec: the regular expression [validDBName], declared
    elsewhere in package daemon.  "Every database name MUST match a
    conservative identifier regex (letters, digits, underscores)." *)
Definition identChar (c : ascii) : bool :=
  let n := nat_of_ascii c in
  ((48 <=? n) && (n <=? 57) || (65 <=? n) && (n <=? 90)
   || (97 <=? n) && (n <=? 122) || (n =? 95))%nat.

Fixpoint allIdentChars (s : string) : bool :=
  match s with
  | EmptyString => true
  | String c s' => identChar c && allIdentChars s'
  end.

Definition validDBName (s : string) : bool :=
  negb (String.eqb s "") && allIdentChars s.

Section Config.

Variable ParseDuration : string -> option Z.

(** The shape shared by [wispReaperInterval], [wispReaperMaxAge] and
    [wispDeleteAge]: the configured string when it parses to a positive
    duration, the default otherwise. *)
Definition durationOr (field : WispReaperConfig -> string) (dflt : Z)
  (config : option DaemonPatrolConfig) : Z :=
  match config with
  | Some {| Patrols := Some {| WispReaper := Some c |} |} =>
      if negb (String.eqb (field c) "") then
        match ParseDuration (field c) with
        | Some d => if 0 <? d then d else dflt
        | None => dflt
        end
      else dflt
  | _ => dflt
  end.

Definition wispReaperInterval := durationOr IntervalStr defaultWispReaperInterval.
Definition wispReaperMaxAge := durationOr MaxAgeStr defaultWispMaxAge.
Definition wispDeleteAge := durationOr DeleteAgeStr defaultWispDeleteAge.

End Config.

(** [discoverDoltDatabases] *)
Definition discoverDoltDatabases : list string := ["hq"; "beads"; "gastown"].

(** *** The cycle *)

Record reaperCycle := mkCycle {
  databases : list string;
  maxAge : Z;
  deleteAge : Z;
  dryRun : bool;
  cutoff : Z;
  deleteCutoff : Z;
  totalReaped : Z;
  totalOpen : Z;
  totalPurged : Z;
  totalMailPurged : Z;
  totalAutoClosed : Z
}.

Definition withDatabases (dbs : list string) (rc : reaperCycle) : reaperCycle :=
  {| databases := dbs; maxAge := maxAge rc; deleteAge := deleteAge rc;
     dryRun := dryRun rc; cutoff := cutoff rc; deleteCutoff := deleteCutoff rc;
     totalReaped := totalReaped rc; totalOpen := totalOpen rc;
     totalPurged := totalPurged rc; totalMailPurged := totalMailPurged rc;
     totalAutoClosed := totalAutoClosed rc |}.

Definition addReaped (reaped open : Z) (rc : reaperCycle) : reaperCycle :=
  {| databases := databases rc; maxAge := maxAge rc; deleteAge := deleteAge rc;
     dryRun := dryRun rc; cutoff := cutoff rc; deleteCutoff := deleteCutoff rc;
     totalReaped := totalReaped rc + reaped; totalOpen := totalOpen rc + open;
     totalPurged := totalPurged rc; totalMailPurged := totalMailPurged rc;
     totalAutoClosed := totalAutoClosed rc |}.

Definition addPurged (purged : Z) (rc : reaperCycle) : reaperCycle :=
  {| databases := databases rc; maxAge := maxAge rc; deleteAge := deleteAge rc;
     dryRun := dryRun rc; cutoff := cutoff rc; deleteCutoff := deleteCutoff rc;
     totalReaped := totalReaped rc; totalOpen := totalOpen rc;
     totalPurged := totalPurged rc + purged; totalMailPurged := totalMailPurged rc;
     totalAutoClosed := totalAutoClosed rc |}.

Definition addMailPurged (purged : Z) (rc : reaperCycle) : reaperCycle :=
  {| databases := databases rc; maxAge := maxAge rc; deleteAge := deleteAge rc;
     dryRun := dryRun rc; cutoff := cutoff rc; deleteCutoff := deleteCutoff rc;
     totalReaped := totalReaped rc; totalOpen := totalOpen rc;
     totalPurged := totalPurged rc; totalMailPurged := totalMailPurged rc + purged;
     totalAutoClosed := totalAutoClosed rc |}.

Definition addAutoClosed (closed : Z) (rc : reaperCycle) : reaperCycle :=
  {| databases := databases rc; maxAge := maxAge rc; deleteAge := deleteAge rc;
     dryRun := dryRun rc; cutoff := cutoff rc; deleteCutoff := deleteCutoff rc;
     totalReaped := totalReaped rc; totalOpen := totalOpen rc;
     totalPurged := totalPurged rc; totalMailPurged := totalMailPurged rc;
     totalAutoClosed := totalAutoClosed rc + closed |}.

(** What the tracking molecule is told. *)
Inductive StepEvent :=
| closeStep (step : string)
| failStep (step : string) (errors : Z).

Definition stepResult (step : string) (errors : Z) : StepEvent :=
  if 0 <? errors then failStep step errors else closeStep step.

(** The readings of the clocks during one cycle, and the batch budget of
    the purge deadlines. *)
Record Env := mkEnv {
  nowCutoff : Z;          (* time.Now() for rc.cutoff *)
  nowDeleteCutoff : Z;    (* time.Now() for rc.deleteCutoff *)
  nowMail : Z;            (* time.Now() for mailCutoff *)
  nowStale : Z;           (* time.Now() for staleCutoff *)
  sqlNow : Z;             (* NOW() on the server *)
  batchBudget : nat
}.

(** The loop head that every step repeats: range over the databases and
    skip the names that do not match [validDBName]. *)
Fixpoint forEachDatabase {S : Type} (body : string -> Server -> S -> Server * S)
  (dbs : list string) (srv : Server) (acc : S) : Server * S :=
  match dbs with
  | [] => (srv, acc)
  | dbName :: rest =>
      if negb (validDBName dbName) then forEachDatabase body rest srv acc
      else
        let '(srv', acc') := body dbName srv acc in
        forEachDatabase body rest srv' acc'
  end.

(** The body of the loop of [reaperReap]; the state is the cycle record
    and [reapErrors]. *)
Definition reapBody (env : Env) (dbName : string) (srv : Server)
  (st : reaperCycle * Z) : Server * (reaperCycle * Z) :=
  let '(rc, reapErrors) := st in
  match reapWispsInDB (sqlNow env) srv dbName (cutoff rc) (dryRun rc) with
  | (srv', (_, _, Some _)) => (srv', (rc, reapErrors + 1))
  | (srv', (reaped, open, None)) => (srv', (addReaped reaped open rc, reapErrors))
  end.

(** [reaperReap] *)
Definition reaperReap (env : Env) (rc : reaperCycle) (srv : Server)
  : Server * reaperCycle * StepEvent :=
  let '(srv', (rc', reapErrors)) :=
    forEachDatabase (reapBody env) (databases rc) srv (rc, 0) in
  (srv', rc', stepResult "reap" reapErrors).

Definition purgeBody (env : Env) (dbName : string) (srv : Server)
  (st : reaperCycle * Z) : Server * (reaperCycle * Z) :=
  let '(rc, purgeErrors) := st in
  match purgeClosedWispsInDB (batchBudget env) srv dbName (deleteCutoff rc) (dryRun rc) with
  | (srv', (_, Some _)) => (srv', (rc, purgeErrors + 1))
  | (srv', (purged, None)) => (srv', (addPurged purged rc, purgeErrors))
  end.

(** The mail loop has no error counter, and passes no dry-run flag. *)
Definition mailPurgeBody (env : Env) (mailCutoff : Z) (dbName : string) (srv : Server)
  (rc : reaperCycle) : Server * reaperCycle :=
  match purgeOldMailInDB (batchBudget env) srv dbName mailCutoff with
  | (srv', (_, Some _)) => (srv', rc)
  | (srv', (purged, None)) => (srv', addMailPurged purged rc)
  end.

(** [reaperPurge]: the wisp purge, then the mail purge. *)
Definition reaperPurge (env : Env) (rc : reaperCycle) (srv : Server)
  : Server * reaperCycle * StepEvent :=
  let '(srv1, (rc1, purgeErrors)) :=
    forEachDatabase (purgeBody env) (databases rc) srv (rc, 0) in
  let mailCutoff := Time.Add (nowMail env) (- defaultMailDeleteAge) in
  let '(srv2, rc2) :=
    forEachDatabase (mailPurgeBody env mailCutoff) (databases rc1) srv1 rc1 in
  (srv2, rc2, stepResult "purge" purgeErrors).

Definition autoCloseBody (env : Env) (staleCutoff : Z) (dbName : string) (srv : Server)
  (st : reaperCycle * Z) : Server * (reaperCycle * Z) :=
  let '(rc, autoCloseErrors) := st in
  match autoCloseStaleIssuesInDB (sqlNow env) srv dbName staleCutoff (dryRun rc) with
  | (srv', (_, Some _)) => (srv', (rc, autoCloseErrors + 1))
  | (srv', (closed, None)) => (srv', (addAutoClosed closed rc, autoCloseErrors))
  end.

(** [reaperAutoClose] *)
Definition reaperAutoClose (env : Env) (rc : reaperCycle) (srv : Server)
  : Server * reaperCycle * StepEvent :=
  let staleCutoff := Time.Add (nowStale env) (- defaultStaleIssueAge) in
  let '(srv', (rc', autoCloseErrors)) :=
    forEachDatabase (autoCloseBody env staleCutoff) (databases rc) srv (rc, 0) in
  (srv', rc', stepResult "auto-close" autoCloseErrors).

(** The outcome of [reapWisps]: the molecule's steps and the cycle record;
    [NotRun] when the patrol is disabled. *)
Inductive CycleOutcome :=
| NotRun
| ScanFailed
| Completed (rc : reaperCycle) (steps : list StepEvent).

Section Cycle.

Variable ParseDuration : string -> option Z.

(** [reapWisps]: scan, reap, purge, auto-close, report. *)
Definition reapWisps (env : Env) (patrolConfig : option DaemonPatrolConfig)
  (srv : Server) : Server * CycleOutcome :=
  match patrolConfig with
  | Some {| Patrols := Some {| WispReaper := Some config |} |} =>
      if negb (IsPatrolEnabled_wisp_reaper patrolConfig) then (srv, NotRun)
      else
        let maxAge := wispReaperMaxAge ParseDuration patrolConfig in
        let deleteAge := wispDeleteAge ParseDuration patrolConfig in
        let rc :=
          {| databases := []; maxAge := maxAge; deleteAge := deleteAge;
             dryRun := DryRun config;
             cutoff := Time.Add (nowCutoff env) (- maxAge);
             deleteCutoff := Time.Add (nowDeleteCutoff env) (- deleteAge);
             totalReaped := 0; totalOpen := 0; totalPurged := 0;
             totalMailPurged := 0; totalAutoClosed := 0 |} in
        let dbs :=
          if Nat.eqb (length (Databases config)) 0 then discoverDoltDatabases
          else Databases config in
        let rc := withDatabases dbs rc in
        if Nat.eqb (length (databases rc)) 0 then (srv, ScanFailed)
        else
          let '(srv1, rc1, reap) := reaperReap env rc srv in
          let '(srv2, rc2, purge) := reaperPurge env rc1 srv1 in
          let '(srv3, rc3, autoClose) := reaperAutoClose env rc2 srv2 in
          (srv3, Completed rc3 [closeStep "scan"; reap; purge; autoClose; closeStep "report"])
  | _ => (srv, NotRun)
  end.

End Cycle.

(** *** The statements of a batch *)

(** [joinStrings] *)
Definition joinStrings (parts : list string) (sep : string) : string :=
  match parts with
  | [] => ""
  | first :: rest => fold_left (fun result p => result +:+ (sep +:+ p)) rest first
  end.

(** The [placeholders] of a batch, one for each id, and its [inClause]. *)
Definition placeholders (ids : list string) : list string :=
  map (fun _ => "?") ids.

Definition inClause (ids : list string) : string :=
  "(" +:+ joinStrings (placeholders ids) "," +:+ ")".

(** The number of parameter marks in the text of a statement. *)
Fixpoint countMarks (s : string) : nat :=
  match s with
  | EmptyString => O
  | String c s' =>
      if Ascii.eqb c "?"%char then S (countMarks s') else countMarks s'
  end.

(** The name a table goes by in a statement. *)
Definition auxTableName (tbl : AuxTable) : string :=
  match tbl with
  | T_wisp_labels => "wisp_labels" | T_wisp_comments => "wisp_comments"
  | T_wisp_events => "wisp_events" | T_wisp_dependencies => "wisp_dependencies"
  | T_labels => "labels" | T_comments => "comments"
  | T_events => "events" | T_dependencies => "dependencies"
  end.

Definition primaryTableName (tbl : PrimaryTable) : string :=
  match tbl with T_wisps => "wisps" | T_issues => "issues" end.

(** [delAux] and [delPrimary], the texts sent with the ids as arguments. *)
Definition delAux (dbName : string) (tbl : AuxTable) (ids : list string) : string :=
  "DELETE FROM `" +:+ dbName +:+ "`.`" +:+ auxTableName tbl
    +:+ "` WHERE issue_id IN " +:+ inClause ids.

Definition delPrimary (dbName : string) (tbl : PrimaryTable) (ids : list string) : string :=
  "DELETE FROM `" +:+ dbName +:+ "`.`" +:+ primaryTableName tbl
    +:+ "` WHERE id IN " +:+ inClause ids.

(** *** Further conditions, in words *)

(** The wisp has a parent-child row, and none of its parent-child rows
    leads to a row of [wisps]: the parent is gone. *)
Definition parentMissing (wds : list Dependency) (ws : list Wisp) (w : Wisp) : Prop :=
  (exists wd, wd ∈ wds /\ isParentChildOf w wd = true)
  /\ forall wd parent,
       wd ∈ wds -> isParentChildOf w wd = true ->
       parent ∈ ws -> w_id parent <> d_depends_on_id wd.

(** The ids of the wisps that [ws] has and [ws'] lacks. *)
Definition deletedFrom (ws ws' : list Wisp) (id : string) : Prop :=
  exists w, w ∈ ws /\ ~ (w ∈ ws') /\ w_id w = id.

(** The second database has the wisp tables of the first. *)
Definition sameWisps (db db' : Database) : Prop := wispTables db' = wispTables db.

(** [doltServerPort]: the configured port of the managed server, 3307
    when the daemon manages none. *)
Definition doltServerPort (doltServer : option Z) : Z :=
  match doltServer with
  | Some port => port
  | None => 3307
  end.

End Reaper.

(** ** internal/daemon/wisp_reaper.go

    The second copy of the reaper.  Its per-database functions send the
    same statements as those of [Reaper] (the parent check is written out
    inside [reapWispsInDB] and [purgeClosedWispsInDB]); it has no auto-close
    step, and its mail retention differs. *)

Module WispReaperGo.

Definition defaultWispMaxAge : Z := 24 * Time.Hour.
Definition defaultWispDeleteAge : Z := 7 * 24 * Time.Hour.
Definition defaultMailDeleteAge : Z := 30 * 24 * Time.Hour.
Definition deleteBatchSize : nat := 100.

Definition discoverDoltDatabases : list string := ["hq"; "beads"; "gastown"].

(** The result of a cycle of this revision. *)
Record Totals := mkTotals {
  totalReaped : Z;
  totalOpen : Z;
  totalPurged : Z;
  totalMailPurged : Z
}.

(** The body of the reap loop; the state is [totalReaped], [totalOpen] and
    [reapErrors]. *)
Definition reapBody (env : Reaper.Env) (cutoff : Z) (dryRun : bool) (dbName : string)
  (srv : Reaper.Server) (st : Z * Z * Z) : Reaper.Server * (Z * Z * Z) :=
  let '(totalReaped, totalOpen, reapErrors) := st in
  match Reaper.reapWispsInDB (Reaper.sqlNow env) srv dbName cutoff dryRun with
  | (srv', (_, _, Some _)) => (srv', (totalReaped, totalOpen, reapErrors + 1))
  | (srv', (reaped, open, None)) =>
      (srv', (totalReaped + reaped, totalOpen + open, reapErrors))
  end.

Definition purgeBody (env : Reaper.Env) (deleteCutoff : Z) (dryRun : bool)
  (dbName : string) (srv : Reaper.Server) (st : Z * Z) : Reaper.Server * (Z * Z) :=
  let '(totalPurged, purgeErrors) := st in
  match Reaper.purgeClosedWispsInDB (Reaper.batchBudget env) srv dbName deleteCutoff dryRun with
  | (srv', (_, Some _)) => (srv', (totalPurged, purgeErrors + 1))
  | (srv', (purged, None)) => (srv', (totalPurged + purged, purgeErrors))
  end.

Definition mailPurgeBody (env : Reaper.Env) (mailCutoff : Z) (dbName : string)
  (srv : Reaper.Server) (totalMailPurged : Z) : Reaper.Server * Z :=
  match Reaper.purgeOldMailInDB (Reaper.batchBudget env) srv dbName mailCutoff with
  | (srv', (_, Some _)) => (srv', totalMailPurged)
  | (srv', (purged, None)) => (srv', totalMailPurged + purged)
  end.

(** The mail cutoff of this revision. *)
Definition mailCutoff (env : Reaper.Env) : Z :=
  Time.Add (Reaper.nowMail env) (- defaultMailDeleteAge).

Section Cycle.

Variable ParseDuration : string -> option Z.

(** [reapWisps], with its steps written in line. *)
Definition reapWisps (env : Reaper.Env) (patrolConfig : option Reaper.DaemonPatrolConfig)
  (srv : Reaper.Server) : Reaper.Server * option Totals :=
  match patrolConfig with
  | Some {| Reaper.Patrols := Some {| Reaper.WispReaper := Some config |} |} =>
      if negb (Reaper.IsPatrolEnabled_wisp_reaper patrolConfig) then (srv, None)
      else
        let maxAge := Reaper.durationOr ParseDuration Reaper.MaxAgeStr defaultWispMaxAge patrolConfig in
        let deleteAge :=
          Reaper.durationOr ParseDuration Reaper.DeleteAgeStr defaultWispDeleteAge patrolConfig in
        let dryRun := Reaper.DryRun config in
        let cutoff := Time.Add (Reaper.nowCutoff env) (- maxAge) in
        let deleteCutoff := Time.Add (Reaper.nowDeleteCutoff env) (- deleteAge) in
        let databases :=
          if Nat.eqb (length (Reaper.Databases config)) 0 then discoverDoltDatabases
          else Reaper.Databases config in
        if Nat.eqb (length databases) 0 then (srv, None)
        else
          let '(srv1, (totalReaped, totalOpen, _)) :=
            Reaper.forEachDatabase (reapBody env cutoff dryRun) databases srv (0, 0, 0) in
          let '(srv2, (totalPurged, _)) :=
            Reaper.forEachDatabase (purgeBody env deleteCutoff dryRun) databases srv1 (0, 0) in
          let '(srv3, totalMailPurged) :=
            Reaper.forEachDatabase (mailPurgeBody env (mailCutoff env)) databases srv2 0 in
          (srv3, Some {| totalReaped := totalReaped; totalOpen := totalOpen;
                         totalPurged := totalPurged; totalMailPurged := totalMailPurged |})
  | _ => (srv, None)
  end.

End Cycle.

End WispReaperGo.

(** ** internal/daemon/doctor_dog.go

    The settings of the doctor dog, the patrol that reads [doltServerPort].
    A [float64] is a primitive float. *)

Module DoctorDog.

Import PrimFloat.

Definition defaultDoctorDogInterval : Z := 5 * Time.Minute.
Definition defaultDoctorDogLatencyAlertMs : float := 5000%float.
Definition defaultDoctorDogOrphanAlertCount : Z := 20.
Definition defaultDoctorDogBackupStaleSeconds : float := 3600%float.

Record DoctorDogConfig := mkDoctorDogConfig {
  Enabled : bool;
  IntervalStr : string;
  Databases : list string;
  LatencyAlertMs : float;
  OrphanAlertCount : Z;
  BackupStaleSeconds : float
}.

(** The doctor dog's block of the patrols section. *)
Record PatrolsConfig := mkPatrols {
  DoctorDog : option DoctorDogConfig
}.

Record DaemonPatrolConfig := mkDaemonConfig {
  Patrols : option PatrolsConfig
}.

(** [doctorDogThresholds]: (latencyMs, orphanCount, backupStaleSec). *)
Definition doctorDogThresholds (config : option DaemonPatrolConfig) : float * Z * float :=
  let latencyMs := defaultDoctorDogLatencyAlertMs in
  let orphanCount := defaultDoctorDogOrphanAlertCount in
  let backupStaleSec := defaultDoctorDogBackupStaleSeconds in
  match config with
  | Some {| Patrols := Some {| DoctorDog := Some cfg |} |} =>
      let latencyMs :=
        if PrimFloat.ltb 0%float (LatencyAlertMs cfg) then LatencyAlertMs cfg
        else latencyMs in
      let orphanCount :=
        if 0 <? OrphanAlertCount cfg then OrphanAlertCount cfg else orphanCount in
      let backupStaleSec :=
        if PrimFloat.ltb 0%float (BackupStaleSeconds cfg) then BackupStaleSeconds cfg
        else backupStaleSec in
      (latencyMs, orphanCount, backupStaleSec)
  | _ => (latencyMs, orphanCount, backupStaleSec)
  end.

Section Interval.

Variable ParseDuration : string -> option Z.

(** [doctorDogInterval] *)
Definition doctorDogInterval (config : option DaemonPatrolConfig) : Z :=
  match config with
  | Some {| Patrols := Some {| DoctorDog := Some cfg |} |} =>
      if negb (String.eqb (IntervalStr cfg) "") then
        match ParseDuration (IntervalStr cfg) with
        | Some d => if 0 <? d then d else defaultDoctorDogInterval
        | None => defaultDoctorDogInterval
        end
      else defaultDoctorDogInterval
  | _ => defaultDoctorDogInterval
  end.

End Interval.

(** [doctorDogDatabases] *)
Definition doctorDogDatabases (config : option DaemonPatrolConfig) : list string :=
  let dflt := ["hq"; "beads"; "gastown"; "sky"; "wyvern"; "beads_hop"] in
  match config with
  | Some {| Patrols := Some {| DoctorDog := Some cfg |} |} =>
      if (0 <? length (Databases cfg))%nat then Databases cfg else dflt
  | _ => dflt
  end.

End DoctorDog.

(** ** internal/deps/beads.go *)

Module Beads.

(** [appendGOBIN].  [home] is what [os.UserHomeDir] returns, [None] for
    its error; the components given to [filepath.Join] are clean. *)
Fixpoint replaceGOBIN (gobin : string) (env : list string) : option (list string) :=
  match env with
  | [] => None
  | e :: rest =>
      if String.prefix "GOBIN=" e then Some (("GOBIN=" +:+ gobin) :: rest)
      else cons e <$> replaceGOBIN gobin rest
  end.

Definition appendGOBIN (home : option string) (env : list string) : list string :=
  match home with
  | None => env
  | Some home =>
      let gobin := LogRot.Join (LogRot.Join home ".local") "bin" in
      match replaceGOBIN gobin env with
      | Some env' => env'
      | None => env ++ ["GOBIN=" +:+ gobin]
      end
  end.

(** [parseBeadsVersion]: the leftmost match of
    [bd version (\d+\.\d+\.\d+)], or the empty string. *)
Definition isDigit (c : ascii) : bool :=
  let n := nat_of_ascii c in ((48 <=? n) && (n <=? 57))%nat.

(** The longest run of digits at the head of a string, and what follows. *)
Fixpoint digits (s : string) : string * string :=
  match s with
  | EmptyString => ("", "")
  | String c s' =>
      if isDigit c then let '(run, rest) := digits s' in (String c run, rest)
      else ("", s)
  end.

(** The capture group, matched at the head of a string. *)
Definition versionAt (s : string) : option string :=
  let '(major, r1) := digits s in
  if String.eqb major "" then None
  else match r1 with
       | String "."%char r1' =>
           let '(minor, r2) := digits r1' in
           if String.eqb minor "" then None
           else match r2 with
                | String "."%char r2' =>
                    let '(patch, _) := digits r2' in
                    if String.eqb patch "" then None
                    else Some (major +:+ "." +:+ minor +:+ "." +:+ patch)
                | _ => None
                end
       | _ => None
       end.

Fixpoint parseBeadsVersion (output : string) : string :=
  let here :=
    if String.prefix "bd version " output
    then versionAt (LogRot.dropPrefix 11 output)
    else None in
  match here with
  | Some version => version
  | None =>
      match output with
      | EmptyString => ""
      | String _ rest => parseBeadsVersion rest
      end
  end.

(** A non-empty run of digits. *)
Definition isNumber (s : string) : Prop :=
  s <> "" /\ digits s = (s, "").

End Beads.

(** ** Sample data

    The seed scenarios of the specification, as values on which the
    definitions above can be run. *)

Module Sample.

Import Reaper.

Definition day : Z := 24 * Time.Hour.

(** The moment of the sample cycles: every clock reads day 1000. *)
Definition now : Z := 1000 * day.

Definition env : Env :=
  {| nowCutoff := now; nowDeleteCutoff := now; nowMail := now; nowStale := now;
     sqlNow := now; batchBudget := 10 |}.

(** No duration string of the sample configurations is set. *)
Definition noDurations : string -> option Z := fun _ => None.

Definition config (dryRun : bool) (dbs : list string) : option DaemonPatrolConfig :=
  Some {| Patrols := Some {| WispReaper := Some
    {| Enabled := true; DryRun := dryRun; IntervalStr := ""; MaxAgeStr := "";
       DeleteAgeStr := ""; Databases := dbs |} |} |}.

Definition emptyDB : Database :=
  {| wisps := Some []; wisp_dependencies := Some []; wisp_labels := Some [];
     wisp_comments := Some []; wisp_events := Some []; issues := Some [];
     dependencies := Some []; labels := Some []; comments := Some [];
     events := Some []; commits := [] |}.

(** One closed message, closed [age] before [now]. *)
Definition message (age : Z) : Issue :=
  {| i_id := "hq-m1"; i_status := "closed"; i_updated_at := now - age;
     i_closed_at := Some (now - age); i_priority := 2; i_issue_type := "message" |}.

Definition mailDB (age : Z) : Database :=
  {| wisps := Some []; wisp_dependencies := Some []; wisp_labels := Some [];
     wisp_comments := Some []; wisp_events := Some [];
     issues := Some [message age];
     dependencies := Some [];
     labels := Some [ {| a_issue_id := "hq-m1"; a_value := "gt:message" |} ];
     comments := Some []; events := Some []; commits := [] |}.

(** Seed scenario 3: two open wisps created 48 hours ago; [w1] has an open
    parent, [w2] has none. *)
Definition w1 : Wisp :=
  {| w_id := "w1"; w_status := "open"; w_created_at := now - 2 * day;
     w_closed_at := None; w_wisp_type := Some "step" |}.
Definition w2 : Wisp :=
  {| w_id := "w2"; w_status := "open"; w_created_at := now - 2 * day;
     w_closed_at := None; w_wisp_type := Some "step" |}.
Definition parent : Wisp :=
  {| w_id := "mol"; w_status := "open"; w_created_at := now - Time.Hour;
     w_closed_at := None; w_wisp_type := Some "molecule" |}.
Definition w1_parent : Dependency :=
  {| d_issue_id := "w1"; d_depends_on_id := "mol"; d_type := "parent-child" |}.

Definition wispDB : Database :=
  {| wisps := Some [w1; w2; parent]; wisp_dependencies := Some [w1_parent];
     wisp_labels := Some []; wisp_comments := Some []; wisp_events := Some [];
     issues := Some []; dependencies := Some []; labels := Some [];
     comments := Some []; events := Some []; commits := [] |}.

(** Seed scenario 4: issues idle for 40 days.  [A] has priority 0; [B] has
    priority 3 and is blocked by the open [C]; [D] has priority 3 and no
    dependency. *)
Definition staleIssue (id : string) (priority : Z) : Issue :=
  {| i_id := id; i_status := "open"; i_updated_at := now - 40 * day;
     i_closed_at := None; i_priority := priority; i_issue_type := "task" |}.

Definition issueDB : Database :=
  {| wisps := Some []; wisp_dependencies := Some []; wisp_labels := Some [];
     wisp_comments := Some []; wisp_events := Some [];
     issues := Some [staleIssue "A" 0; staleIssue "B" 3; staleIssue "C" 3; staleIssue "D" 3];
     dependencies := Some [ {| d_issue_id := "B"; d_depends_on_id := "C"; d_type := "blocks" |} ];
     labels := Some []; comments := Some []; events := Some []; commits := [] |}.

(** A town with one five-byte daemon log and one empty rig log. *)
Definition townLog : string := "/town/daemon/dolt.log".
Definition rigLog : string := "/town/gastown/.beads/dolt-server.log".

Definition town : LogRot.FS :=
  {| LogRot.files :=
       {[ townLog := {| LogRot.data := "hello"; LogRot.modTime := 10 |};
          rigLog := {| LogRot.data := ""; LogRot.modTime := 11 |} ]};
     LogRot.listing :=
       {[ "/town" := [ {| LogRot.Name := "daemon"; LogRot.IsDir := true |};
                       {| LogRot.Name := "gastown"; LogRot.IsDir := true |};
                       {| LogRot.Name := ".git"; LogRot.IsDir := true |} ] ]} |}.

(** A log with one backup from an earlier rotation. *)
Definition rotatedOnce : LogRot.FS :=
  {| LogRot.files :=
       {[ townLog := {| LogRot.data := "world"; LogRot.modTime := 30 |};
          LogRot.backupName townLog 1
            := {| LogRot.data := "hello"; LogRot.modTime := 20 |} ]};
     LogRot.listing := ∅ |}.

(** Two closed wisps, closed ten days ago: [old1] with no parent, [lost]
    with a parent-child row to a wisp that is not in the table; [old1] has
    a label and a comment. *)
Definition old1 : Wisp :=
  {| w_id := "old1"; w_status := "closed"; w_created_at := now - 12 * day;
     w_closed_at := Some (now - 10 * day); w_wisp_type := Some "step" |}.
Definition lost : Wisp :=
  {| w_id := "lost"; w_status := "closed"; w_created_at := now - 12 * day;
     w_closed_at := Some (now - 10 * day); w_wisp_type := None |}.
Definition lost_parent : Dependency :=
  {| d_issue_id := "lost"; d_depends_on_id := "gone"; d_type := "parent-child" |}.

Definition closedDB : Database :=
  {| wisps := Some [old1; lost]; wisp_dependencies := Some [lost_parent];
     wisp_labels := Some [ {| a_issue_id := "old1"; a_value := "patrol" |} ];
     wisp_comments := Some [ {| a_issue_id := "old1"; a_value := "done" |} ];
     wisp_events := Some [];
     issues := Some []; dependencies := Some []; labels := Some [];
     comments := Some []; events := Some []; commits := [] |}.

End Sample.

(* ===================================================================== *)
(** * Part II: properties                                                 *)
(* ===================================================================== *)

(** ** The deduplicator *)

Section DedupFacts.

Import Dedup.

(** A call never forgets an id. *)
Lemma step_keeps id k d :
  processed d !! k = Some true ->
  processed (snd (AlreadyProcessed id d)) !! k = Some true.
Proof.
  intros Hk. unfold AlreadyProcessed.
  destruct (decide (id = "")); [done|].
  destruct (index (processed d) id); [done|].
  simpl. rewrite lookup_insert. by case_decide.
Qed.

Lemma calls_keep ids k : forall d,
  processed d !! k = Some true -> processed (calls ids d) !! k = Some true.
Proof.
  induction ids as [|id ids IH]; intros d Hk; simpl; [done|].
  apply IH. by apply step_keeps.
Qed.

(** An id that was never passed is not a key. *)
Lemma step_fresh id k d :
  k <> id -> processed d !! k = None ->
  processed (snd (AlreadyProcessed id d)) !! k = None.
Proof.
  intros Hne Hk. unfold AlreadyProcessed.
  destruct (decide (id = "")); [done|].
  destruct (index (processed d) id); [done|].
  simpl. by rewrite lookup_insert_ne.
Qed.

Lemma calls_fresh ids k : forall d,
  k ∉ ids -> processed d !! k = None -> processed (calls ids d) !! k = None.
Proof.
  induction ids as [|id ids IH]; intros d Hni Hk; simpl; [done|].
  apply not_elem_of_cons in Hni as [Hne Hni].
  apply IH; [done|]. by apply step_fresh.
Qed.

Lemma seen_again id d :
  processed d !! id = Some true -> id <> "" -> AlreadyProcessed id d = (true, d).
Proof.
  intros Hk Hne. unfold AlreadyProcessed.
  destruct (decide (id = "")); [done|].
  unfold index. by rewrite Hk.
Qed.

(** C9. Deduplicator check-and-set.  In a deduplicator reached from
    [NewMessageDeduplicator] by any history of calls: a call with the empty
    id returns false and changes nothing; a call with a non-empty id that
    the history does not contain returns false and adds exactly that id, so
    the size grows by one; and after that call, whatever calls come in
    between, every further call with the same id returns true and leaves
    the deduplicator, hence its size, unchanged. *)
Theorem C9_dedup_check_and_set (n : Z) (history : list string) (id : string) :
  let d := calls history (NewMessageDeduplicator n) in
  AlreadyProcessed "" d = (false, d)
  /\ (id <> "" -> id ∉ history ->
      exists d',
        AlreadyProcessed id d = (false, d')
        /\ processed d' = <[id := true]> (processed d)
        /\ Size d' = S (Size d)
        /\ forall later,
             let d'' := calls later d' in
             AlreadyProcessed id d'' = (true, d'')
             /\ Size (snd (AlreadyProcessed id d'')) = Size d'').
Proof.
  intros d. split; [done|].
  intros Hne Hfresh.
  assert (Hnone : processed d !! id = None).
  { apply calls_fresh; [done|]. unfold NewMessageDeduplicator. simpl. apply lookup_empty. }
  exists {| processed := <[id := true]> (processed d); maxSize := maxSize d |}.
  repeat split.
  - unfold AlreadyProcessed. destruct (decide (id = "")); [done|].
    unfold index. by rewrite Hnone.
  - unfold Size. simpl. by apply map_size_insert_None.
  - apply seen_again; [|done]. apply calls_keep. simpl. apply lookup_insert_eq.
  - rewrite seen_again; [done| |done]. apply calls_keep. simpl. apply lookup_insert_eq.
Qed.

(** C9 on a deduplicator that has seen [m0]: the first [m1] is new, the
    second is a duplicate even after an [m2] in between. *)
Lemma C9_dedup_check_and_set_witness :
  exists d',
    AlreadyProcessed "m1" (calls ["m0"] (NewMessageDeduplicator 0)) = (false, d')
    /\ processed d' = <["m1" := true]> (processed (calls ["m0"] (NewMessageDeduplicator 0)))
    /\ Size d' = S (Size (calls ["m0"] (NewMessageDeduplicator 0)))
    /\ forall later,
         AlreadyProcessed "m1" (calls later d') = (true, calls later d')
         /\ Size (snd (AlreadyProcessed "m1" (calls later d'))) = Size (calls later d').
Proof.
  apply (proj2 (C9_dedup_check_and_set 0 ["m0"] "m1")).
  - done.
  - apply (bool_decide_unpack _). by vm_compute.
Defined.

End DedupFacts.

(** ** The mail drainer *)

Section MailDrainFacts.

Import MailDrain.







(** Seed scenario 5: of a completion notice and a help request, both 35
    minutes old, and a swarm start 5 minutes old, the default threshold of
    30 minutes selects the completion notice only. *)
Example drain_selection :
  let now := 100 * Time.Hour in
  let m1 := {| ID := "m1"; Subject := "POLECAT_DONE x";
               Timestamp := now - 35 * Time.Minute; Read := false; Wisp := false |} in
  let m2 := {| ID := "m2"; Subject := "HELP: halp";
               Timestamp := now - 35 * Time.Minute; Read := false; Wisp := false |} in
  let m3 := {| ID := "m3"; Subject := "SWARM_START";
               Timestamp := now - 5 * Time.Minute; Read := false; Wisp := false |} in
  findCandidates false (Time.Add now (- (30 * Time.Minute))) [m1; m2; m3]
  = [ {| Message_ := m1; Reason := "protocol" |} ].
Proof. reflexivity. Qed.

Lemma prefix_cons a s1 b s2 :
  String.prefix (String a s1) (String b s2)
  = if ascii_dec a b then String.prefix s1 s2 else false.
Proof. reflexivity. Qed.





Section Run.

Variable ParseDuration : string -> option Z.
Variable detectSender : string.


End Run.



End MailDrainFacts.

(** ** Strings and paths *)

Section StringFacts.

Lemma append_cons (x : ascii) (a b : string) : String x a +:+ b = String x (a +:+ b).
Proof. reflexivity. Qed.


Lemma append_assoc (a b c : string) : (a +:+ b) +:+ c = a +:+ (b +:+ c).
Proof.
  induction a as [|x a IH]; [done|].
  rewrite !append_cons. f_equal. exact IH.
Qed.

Lemma append_length (a b : string) :
  String.length (a +:+ b) = (String.length a + String.length b)%nat.
Proof.
  induction a as [|x a IH]; [done|].
  rewrite append_cons. simpl. f_equal. exact IH.
Qed.

Lemma append_cancel_r (a b s : string) : a +:+ s = b +:+ s -> a = b.
Proof.
  revert b. induction a as [|x a IH]; intros [|y b] H.
  - done.
  - apply (f_equal String.length) in H. rewrite !append_length in H. simpl in H. lia.
  - apply (f_equal String.length) in H. rewrite !append_length in H. simpl in H. lia.
  - rewrite !append_cons in H. injection H as -> H. f_equal. by apply IH.
Qed.

Lemma prefix_append (a b : string) : String.prefix a (a +:+ b) = true.
Proof.
  induction a as [|x a IH].
  - by destruct b.
  - rewrite append_cons, prefix_cons. destruct (ascii_dec x x); [done | congruence].
Qed.

Lemma prefix_length (a b : string) :
  String.prefix a b = true -> (String.length a <= String.length b)%nat.
Proof.
  revert b. induction a as [|x a IH]; intros b H; simpl; [lia|].
  destruct b as [|y b]; [discriminate|].
  rewrite prefix_cons in H. destruct (ascii_dec x y); [|discriminate].
  apply IH in H. simpl. lia.
Qed.

Lemma dropPrefix_append (a b : string) :
  LogRot.dropPrefix (String.length a) (a +:+ b) = b.
Proof.
  induction a as [|x a IH]; [done|].
  rewrite append_cons. simpl. exact IH.
Qed.

Lemma hasSuffix_unfold (s t : string) :
  LogRot.hasSuffix s t
  = (String.eqb s t
     || match s with EmptyString => false | String _ s' => LogRot.hasSuffix s' t end).
Proof. by destruct s. Qed.

Lemma hasSuffix_refl (s : string) : LogRot.hasSuffix s s = true.
Proof. rewrite hasSuffix_unfold, String.eqb_refl. done. Qed.

Lemma hasSuffix_append (a b t : string) :
  LogRot.hasSuffix b t = true -> LogRot.hasSuffix (a +:+ b) t = true.
Proof.
  intros H. induction a as [|x a IH]; [done|].
  change (String x a +:+ b) with (String x (a +:+ b)).
  rewrite hasSuffix_unfold, IH. apply orb_true_r.
Qed.


Lemma hasSeparator_append (a b : string) :
  LogRot.hasSeparator (a +:+ b) = LogRot.hasSeparator a || LogRot.hasSeparator b.
Proof.
  induction a as [|x a IH]; [done|].
  change (String x a +:+ b) with (String x (a +:+ b)).
  simpl. rewrite IH. apply orb_assoc.
Qed.


(** Decimal numerals contain no path separator. *)
Lemma pretty_N_go_no_separator (x : N) : forall s,
  LogRot.hasSeparator s = false -> LogRot.hasSeparator (pretty_N_go x s) = false.
Proof.
  induction (N.lt_wf_0 x) as [x _ IH]. intros s Hs.
  destruct (decide (x = 0)%N) as [->|Hx].
  - by rewrite pretty_N_go_0.
  - rewrite pretty_N_go_step by lia.
    apply IH; [apply N.div_lt; lia|].
    simpl. rewrite Hs, orb_false_r.
    unfold pretty_N_char. by repeat case_match.
Qed.

Lemma pretty_nat_no_separator (n : nat) : LogRot.hasSeparator (pretty n) = false.
Proof.
  unfold pretty, pretty_nat, pretty, pretty_N.
  case_decide; [done|]. by apply pretty_N_go_no_separator.
Qed.

End StringFacts.

(** ** Sorting *)

Section SortFacts.

Context {A : Type} (less : A -> A -> bool).

Lemma insertLeft_length x (l : list A) :
  length (LogRot.insertLeft less x l) = S (length l).
Proof.
  induction l as [|p ps IH]; simpl; [done|].
  destruct (less x p); simpl; [by rewrite IH | done].
Qed.

Lemma insertLeft_elem x y (l : list A) :
  y ∈ LogRot.insertLeft less x l <-> y = x \/ y ∈ l.
Proof.
  induction l as [|p ps IH]; simpl.
  - rewrite list_elem_of_singleton. split; [tauto|]. intros [?|H]; [done|inversion H].
  - destruct (less x p); rewrite !elem_of_cons; [rewrite IH|]; tauto.
Qed.

Lemma sortBy_fold_length (l : list A) : forall acc,
  length (fold_left (fun revPrefix x => LogRot.insertLeft less x revPrefix) l acc)
  = (length l + length acc)%nat.
Proof.
  induction l as [|x l IH]; intros acc; simpl; [done|].
  rewrite IH, insertLeft_length. lia.
Qed.

Lemma sortBy_length (l : list A) : length (LogRot.sortBy less l) = length l.
Proof.
  unfold LogRot.sortBy. rewrite length_rev, sortBy_fold_length. simpl. lia.
Qed.

Lemma sortBy_fold_elem y (l : list A) : forall acc,
  y ∈ fold_left (fun revPrefix x => LogRot.insertLeft less x revPrefix) l acc
  <-> y ∈ l \/ y ∈ acc.
Proof.
  induction l as [|x l IH]; intros acc; simpl.
  - split; [tauto|]. intros [H|?]; [inversion H|done].
  - rewrite IH, insertLeft_elem, elem_of_cons. tauto.
Qed.

Lemma sortBy_elem y (l : list A) : y ∈ LogRot.sortBy less l <-> y ∈ l.
Proof.
  unfold LogRot.sortBy. rewrite list_elem_of_In, <- in_rev, <- list_elem_of_In, sortBy_fold_elem.
  split; [|tauto]. intros [?|H]; [done|inversion H].
Qed.

End SortFacts.

(** ** Log rotation *)

Section LogRotFacts.

Import LogRot.

Lemma globMatch_intro (p mid : string) :
  hasSeparator mid = false -> globMatch p (p +:+ "." +:+ mid +:+ ".gz") = true.
Proof.
  intros Hmid. unfold globMatch.
  rewrite <- (append_assoc p "." (mid +:+ ".gz")).
  rewrite prefix_append, dropPrefix_append. simpl.
  rewrite hasSuffix_append by apply hasSuffix_refl.
  rewrite hasSeparator_append, Hmid. reflexivity.
Qed.

Lemma globMatch_backup (p : string) (i : nat) : globMatch p (backupName p i) = true.
Proof. apply globMatch_intro, pretty_nat_no_separator. Qed.

Lemma globMatch_self (p : string) : globMatch p p = false.
Proof.
  unfold globMatch. destruct (String.prefix (p +:+ ".") p) eqn:H; [|done].
  apply prefix_length in H. rewrite append_length in H. simpl in H. lia.
Qed.


Lemma backupName_inj (p : string) (i j : nat) :
  backupName p i = backupName p j -> i = j.
Proof.
  unfold backupName. intros H.
  apply String.app_inj in H. apply String.app_inj in H.
  apply append_cancel_r in H. by apply pretty_nat_inj in H.
Qed.

Lemma backupName_ne_self (p : string) (i : nat) : backupName p i <> p.
Proof.
  intros H. pose proof (globMatch_backup p i) as Hb.
  rewrite H, globMatch_self in Hb. discriminate.
Qed.

Lemma logPath_append_1 (p : string) : p +:+ ".1.gz" = backupName p 1.
Proof. reflexivity. Qed.

(** The shift loop, unrolled for three backups. *)
Lemma shiftRotations_unfold (p : string) (fs : FS) :
  shiftRotations logRotationMaxBackups p fs
  = Rename (backupName p 1) (backupName p 2)
      (Rename (backupName p 2) (backupName p 3) (Remove (backupName p 3) fs)).
Proof. reflexivity. Qed.

Lemma Rename_lookup (old new q : string) (fs : FS) :
  old <> new ->
  files (Rename old new fs) !! q
  = if decide (q = new) then
      match files fs !! old with Some f => Some f | None => files fs !! new end
    else if decide (q = old) then None
    else files fs !! q.
Proof.
  intros Hne. unfold Rename.
  destruct (files fs !! old) as [f|] eqn:Hold; simpl.
  - rewrite lookup_insert. repeat case_decide; subst; try done.
    + by rewrite lookup_delete_eq.
    + by rewrite lookup_delete_ne.
  - repeat case_decide; subst; done.
Qed.

Lemma shift_lookup (p q : string) (fs : FS) :
  files (shiftRotations logRotationMaxBackups p fs) !! q
  = if decide (q = backupName p 1) then None
    else if decide (q = backupName p 2) then files fs !! backupName p 1
    else if decide (q = backupName p 3) then files fs !! backupName p 2
    else files fs !! q.
Proof.
  assert (H12 : backupName p 1 <> backupName p 2) by (intros H; by apply backupName_inj in H).
  assert (H23 : backupName p 2 <> backupName p 3) by (intros H; by apply backupName_inj in H).
  assert (H13 : backupName p 1 <> backupName p 3) by (intros H; by apply backupName_inj in H).
  rewrite shiftRotations_unfold, !Rename_lookup by done.
  unfold Remove; simpl.
  repeat case_decide; simplify_eq;
    rewrite ?lookup_delete_eq, ?lookup_delete_ne by done;
    repeat case_match; simplify_eq; try done.
Qed.

Lemma elem_of_Glob (fs : FS) (p q : string) :
  q ∈ Glob fs p <-> globMatch p q = true /\ is_Some (files fs !! q).
Proof.
  unfold Glob. rewrite sortBy_elem, list_elem_of_filter.
  rewrite list_elem_of_fmap. split.
  - intros [Hm [[k f] [-> Hin]]]. split; [done|].
    apply elem_of_map_to_list in Hin. simpl. eauto.
  - intros [Hm [f Hf]]. split; [done|].
    exists (q, f). split; [done|]. by apply elem_of_map_to_list.
Qed.

Lemma NoDup_Glob_length (fs : FS) (p : string) (bound : list string) :
  (forall q, q ∈ Glob fs p -> q ∈ bound) -> (length (Glob fs p) <= length bound)%nat.
Proof.
  intros Hsub. unfold Glob in *. rewrite sortBy_length.
  apply submseteq_length, NoDup_submseteq.
  - apply NoDup_filter, NoDup_fst_map_to_list.
  - intros q Hq. apply Hsub. by apply sortBy_elem.
Qed.

(** With numbered backups only, there is nothing to clean. *)
Lemma cleanOldRotations_numbered (p : string) (fs : FS) :
  onlyNumberedBackups p fs -> cleanOldRotations p fs = fs.
Proof.
  intros Hnum. unfold cleanOldRotations.
  assert (Hlen : (length (Glob fs p) <= 3)%nat).
  { apply (NoDup_Glob_length fs p [backupName p 1; backupName p 2; backupName p 3]).
    intros q Hq. apply elem_of_Glob in Hq as [Hm Hs].
    destruct (Hnum q Hm Hs) as [-> | [-> | ->]]; set_solver. }
  apply Nat.leb_le in Hlen. unfold logRotationMaxBackups. by rewrite Hlen.
Qed.


Lemma removeAll_listing (paths : list string) : forall fs,
  listing (removeAll paths fs) = listing fs.
Proof. induction paths as [|x xs IH]; intros fs; simpl; [done|]. by rewrite IH. Qed.



Section Rotation.

Variable gzip : string -> string.

(** The state of a rotation just before the clean-up, read path by path. *)
Lemma rotate_before_clean (now : Z) (p : string) (fs : FS) (f : File) :
  files fs !! p = Some f ->
  exists fs3,
    copyTruncateRotate gzip now p fs = (cleanOldRotations p fs3, None)
    /\ listing fs3 = listing fs
    /\ forall q,
         files fs3 !! q
         = if decide (q = p) then Some {| data := ""; modTime := now |}
           else if decide (q = backupName p 1)
                then Some {| data := gzip (data f); modTime := now |}
           else if decide (q = backupName p 2) then files fs !! backupName p 1
           else if decide (q = backupName p 3) then files fs !! backupName p 2
           else files fs !! q.
Proof.
  intros Hp.
  assert (Hp1 : files (shiftRotations logRotationMaxBackups p fs) !! p = Some f).
  { rewrite shift_lookup.
    rewrite !decide_False by (intros E; symmetry in E; by apply backupName_ne_self in E).
    done. }
  set (fs1 := shiftRotations logRotationMaxBackups p fs) in *.
  exists (withFiles fs1
            (<[p := {| data := ""; modTime := now |}]>
               (<[backupName p 1 := {| data := gzip (data f); modTime := now |}]>
                  (files fs1)))).
  split; [|split].
  - unfold copyTruncateRotate, compressFile. cbv zeta. fold fs1. rewrite Hp1.
    unfold Truncate0. simpl. rewrite logPath_append_1.
    rewrite lookup_insert_ne by apply backupName_ne_self.
    rewrite Hp1. reflexivity.
  - simpl. unfold fs1. rewrite shiftRotations_unfold. unfold Rename, Remove.
    repeat (case_match; simpl); done.
  - intros q. simpl. rewrite lookup_insert. case_decide; [by subst; rewrite decide_True|].
    rewrite decide_False by done.
    rewrite lookup_insert. case_decide; [by subst; rewrite decide_True|].
    rewrite decide_False by done.
    unfold fs1. rewrite shift_lookup. rewrite decide_False by done. done.
Qed.


(** Numbered backups stay numbered, and the rotation shifts them by one. *)
Lemma rotate_numbered (now : Z) (p : string) (fs fs' : FS) :
  onlyNumberedBackups p fs ->
  copyTruncateRotate gzip now p fs = (fs', None) ->
  files fs' !! p = Some {| data := ""; modTime := now |}
  /\ is_Some (files fs' !! backupName p 1)
  /\ files fs' !! backupName p 2 = files fs !! backupName p 1
  /\ files fs' !! backupName p 3 = files fs !! backupName p 2
  /\ onlyNumberedBackups p fs'.
Proof.
  intros Hnum Hrot.
  assert (H12 : backupName p 1 <> backupName p 2) by (intros H; by apply backupName_inj in H).
  assert (H23 : backupName p 2 <> backupName p 3) by (intros H; by apply backupName_inj in H).
  assert (H13 : backupName p 1 <> backupName p 3) by (intros H; by apply backupName_inj in H).
  destruct (files fs !! p) as [f|] eqn:Hp.
  2:{ unfold copyTruncateRotate, compressFile in Hrot. cbv zeta in Hrot.
      rewrite shift_lookup in Hrot.
      rewrite !decide_False in Hrot
        by (intros E; symmetry in E; by apply backupName_ne_self in E).
      rewrite Hp in Hrot. discriminate. }
  destruct (rotate_before_clean now p fs f Hp) as (fs3 & Heq & _ & Hlook).
  assert (Hnum3 : onlyNumberedBackups p fs3).
  { intros q Hm Hs. rewrite Hlook in Hs.
    destruct (decide (q = p)) as [->|_]; [by rewrite globMatch_self in Hm|].
    repeat (case_decide; [tauto|]). by apply Hnum. }
  rewrite cleanOldRotations_numbered in Heq by done.
  rewrite Heq in Hrot. injection Hrot as <-.
  repeat split; try done.
  - rewrite Hlook. by rewrite decide_True.
  - rewrite Hlook, decide_False by apply backupName_ne_self.
    rewrite decide_True by done. eauto.
  - rewrite Hlook, decide_False by apply backupName_ne_self.
    rewrite decide_False by done. by rewrite decide_True.
  - rewrite Hlook, decide_False by apply backupName_ne_self.
    rewrite !decide_False by done. by rewrite decide_True.
Qed.

(** Appending to the log leaves the backups alone. *)
Lemma appendLog_lookup (now : Z) (p written q : string) (fs : FS) :
  q <> p -> files (appendLog now p written fs) !! q = files fs !! q.
Proof. intros Hq. unfold appendLog. simpl. by rewrite lookup_insert_ne. Qed.

Lemma appendLog_numbered (now : Z) (p written : string) (fs : FS) :
  onlyNumberedBackups p fs -> onlyNumberedBackups p (appendLog now p written fs).
Proof.
  intros Hnum q Hm Hs. apply Hnum; [done|].
  rewrite appendLog_lookup in Hs; [done|].
  intros ->. by rewrite globMatch_self in Hm.
Qed.

(** One round of writing and rotating, on numbered backups. *)
Lemma round_numbered (now : Z) (written p : string) (fs : FS) :
  onlyNumberedBackups p fs ->
  exists fs',
    copyTruncateRotate gzip now p (appendLog now p written fs) = (fs', None)
    /\ onlyNumberedBackups p fs'
    /\ exists_ fs' (backupName p 1)
    /\ (exists_ fs (backupName p 1) -> exists_ fs' (backupName p 2))
    /\ (exists_ fs (backupName p 2) -> exists_ fs' (backupName p 3)).
Proof.
  intros Hnum.
  pose proof (appendLog_numbered now p written fs Hnum) as Hnum1.
  assert (Hp : is_Some (files (appendLog now p written fs) !! p)).
  { unfold appendLog. simpl. rewrite lookup_insert_eq. eauto. }
  destruct Hp as [f Hp].
  destruct (rotate_before_clean now p _ f Hp) as (fs3 & Heq & _ & _).
  exists (cleanOldRotations p fs3). split; [exact Heq|].
  destruct (rotate_numbered now p _ _ Hnum1 Heq) as (_ & H1 & H2 & H3 & Hnum').
  unfold exists_. rewrite H2, H3.
  rewrite !appendLog_lookup by apply backupName_ne_self.
  tauto.
Qed.

(** C8, as it holds.  When the only files matching [<path>.*.gz] before the
    rotation are among [<path>.1.gz] .. [<path>.3.gz]: a successful
    copy-truncate rotation leaves the file with size 0, [<path>.1.gz] in
    place, no [<path>.K.gz] for any K above the maximum backup count, and
    again only numbered backups; and four successive rounds of writing and
    rotating all succeed and leave exactly [<path>.1.gz] .. [<path>.3.gz],
    with no [<path>.4.gz]. *)
Theorem C8_rotation_postcondition (now : Z) (p : string) (fs : FS) :
  onlyNumberedBackups p fs ->
  (forall fs',
     copyTruncateRotate gzip now p fs = (fs', None) ->
     (exists f, Stat fs' p = Some f /\ Size f = 0)
     /\ exists_ fs' (p +:+ ".1.gz")
     /\ (forall K, (logRotationMaxBackups < K)%nat -> ~ exists_ fs' (backupName p K))
     /\ onlyNumberedBackups p fs')
  /\ (forall r1 r2 r3 r4,
       exists fs4,
         rotateRounds gzip [r1; r2; r3; r4] p fs = (fs4, None)
         /\ exists_ fs4 (backupName p 1)
         /\ exists_ fs4 (backupName p 2)
         /\ exists_ fs4 (backupName p 3)
         /\ forall K, (logRotationMaxBackups < K)%nat -> ~ exists_ fs4 (backupName p K)).
Proof.
  intros Hnum. split.
  - intros fs' Hrot.
    destruct (rotate_numbered now p fs fs' Hnum Hrot) as (Hp & H1 & _ & _ & Hnum').
    repeat split; try done.
    + eexists. split; [exact Hp | reflexivity].
    + intros K HK Hex.
      destruct (Hnum' _ (globMatch_backup p K) Hex) as [E | [E | E]];
        apply backupName_inj in E; unfold logRotationMaxBackups in HK; lia.
  - intros [t1 w1] [t2 w2] [t3 w3] [t4 w4].
    destruct (round_numbered t1 w1 p fs Hnum) as (fs1 & E1 & N1 & A1 & _ & _).
    destruct (round_numbered t2 w2 p fs1 N1) as (fs2 & E2 & N2 & A2 & B2 & _).
    destruct (round_numbered t3 w3 p fs2 N2) as (fs3 & E3 & N3 & A3 & B3 & C3).
    destruct (round_numbered t4 w4 p fs3 N3) as (fs4 & E4 & N4 & A4 & B4 & C4).
    exists fs4. cbn [rotateRounds]. rewrite E1, E2, E3, E4.
    repeat split; auto.
    intros K HK Hex.
    destruct (N4 _ (globMatch_backup p K) Hex) as [E | [E | E]];
      apply backupName_inj in E; unfold logRotationMaxBackups in HK; lia.
Qed.





Lemma Join_Join (root a b : string) :
  Join (Join root a) b = root +:+ "/" +:+ (a +:+ "/" +:+ b).
Proof. unfold Join. by rewrite !append_assoc. Qed.












End Rotation.

(** C8, as stated, fails: a stray [dolt.log.4.gz] from before the rotation
    is still there after it, since the clean-up counts the matches (two
    here) and removes nothing. *)
Lemma C8_counterexample :
  let p := "/town/daemon/dolt.log" in
  let fs := {| files := {[ p := {| data := "hello"; modTime := 10 |};
                           backupName p 4 := {| data := "old"; modTime := 5 |} ]};
               listing := ∅ |} in
  let after := copyTruncateRotate (fun bytes => bytes) 20 p fs in
  after.2 = None
  /\ files after.1 !! p = Some {| data := ""; modTime := 20 |}
  /\ files after.1 !! backupName p 1 = Some {| data := "hello"; modTime := 20 |}
  /\ files after.1 !! backupName p 4 = Some {| data := "old"; modTime := 5 |}
  /\ (logRotationMaxBackups < 4)%nat.
Proof. vm_compute. repeat split; reflexivity. Qed.

(** C8 on a fresh five-byte log. *)
Lemma C8_rotation_postcondition_witness :
  let p := "/town/daemon/dolt.log" in
  let fs := {| files := {[ p := {| data := "hello"; modTime := 10 |} ]};
               listing := ∅ |} in
  exists fs4,
    rotateRounds (fun bytes => bytes) [(20, "hello"); (30, "hello"); (40, "hello"); (50, "hello")] p fs
      = (fs4, None)
    /\ exists_ fs4 (backupName p 1)
    /\ exists_ fs4 (backupName p 2)
    /\ exists_ fs4 (backupName p 3)
    /\ forall K, (logRotationMaxBackups < K)%nat -> ~ exists_ fs4 (backupName p K).
Proof.
  intros p fs.
  refine (proj2 (C8_rotation_postcondition (fun bytes => bytes) 0 p fs _) _ _ _ _).
  intros q Hm [f Hf]. exfalso.
  unfold fs in Hf. simpl in Hf.
  apply lookup_singleton_Some in Hf as [<- _].
  by rewrite globMatch_self in Hm.
Defined.


(** The same town, evaluated: [ForceRotateLogs] rotates the five-byte log
    and skips the empty one; [RotateLogs] skips both. *)
Example rotate_small_town :
  let p := "/town/daemon/dolt.log" in
  let q := "/town/gastown/.beads/dolt-server.log" in
  let fs := {| files := {[ p := {| data := "hello"; modTime := 10 |};
                           q := {| data := ""; modTime := 11 |} ]};
               listing := {[ "/town" := [ {| Name := "daemon"; IsDir := true |};
                                          {| Name := "gastown"; IsDir := true |};
                                          {| Name := ".git"; IsDir := true |} ] ]} |} in
  (ForceRotateLogs (fun bytes => bytes) 20 "/town" fs).2
    = {| Rotated := [p]; Skipped := [q]; Errors := [] |}
  /\ (RotateLogs (fun bytes => bytes) 20 "/town" fs).2
    = {| Rotated := []; Skipped := [p; q]; Errors := [] |}.
Proof. split; vm_compute; reflexivity. Qed.

(** Seed scenario 2: four forced rotations of a log that receives five
    bytes before each leave backups 1, 2 and 3 and no backup 4. *)
Example four_forced_rotations :
  let p := "/town/daemon/dolt.log" in
  let fs0 := {| files := {[ p := {| data := "hello"; modTime := 10 |} ]}; listing := ∅ |} in
  let force t fs := (ForceRotateLogs (fun bytes => bytes) t "/town" fs).1 in
  let fs4 :=
    force 80 (appendLog 70 p "hello"
      (force 60 (appendLog 50 p "hello"
        (force 40 (appendLog 30 p "hello" (force 20 fs0)))))) in
  (fun k => bool_decide (is_Some (files fs4 !! backupName p k))) <$> [1; 2; 3; 4]%nat
    = [true; true; true; false]
  /\ Size <$> files fs4 !! p = Some 0.
Proof. vm_compute. split; reflexivity. Qed.

(** Without new bytes the log is empty after the first run, and the forced
    runs that follow skip it: one backup only. *)
Example four_forced_runs_on_a_silent_log :
  let p := "/town/daemon/dolt.log" in
  let fs0 := {| files := {[ p := {| data := "hello"; modTime := 10 |} ]}; listing := ∅ |} in
  let force t fs := (ForceRotateLogs (fun bytes => bytes) t "/town" fs).1 in
  let fs4 := force 80 (force 60 (force 40 (force 20 fs0))) in
  (fun k => bool_decide (is_Some (files fs4 !! backupName p k))) <$> [1; 2; 3; 4]%nat
    = [true; false; false; false].
Proof. vm_compute. reflexivity. Qed.

End LogRotFacts.

(** ** The wisp reaper *)

Section ReaperFacts.

Import Reaper.

Lemma existsb_elem {A} (f : A -> bool) (l : list A) :
  existsb f l = true <-> exists x, x ∈ l /\ f x = true.
Proof.
  rewrite existsb_exists. split; intros (x & Hx & Hf); exists x;
    (split; [by apply list_elem_of_In | done]).
Qed.

Lemma existsb_none {A} (f : A -> bool) (l : list A) :
  existsb f l = false <-> forall x, x ∈ l -> f x = false.
Proof.
  split.
  - intros H x Hx. destruct (f x) eqn:Hf; [|done].
    assert (existsb f l = true) by (apply existsb_elem; eauto). congruence.
  - intros H. destruct (existsb f l) eqn:He; [|done].
    apply existsb_elem in He as (x & Hx & Hf). rewrite H in Hf; done.
Qed.

Lemma inIds_elem (ids : list string) (id : string) :
  inIds ids id = true <-> id ∈ ids.
Proof.
  unfold inIds. rewrite existsb_elem. split.
  - intros (x & Hx & Heq). apply String.eqb_eq in Heq. by subst.
  - intros H. exists id. split; [done | apply String.eqb_refl].
Qed.

(** [parentCheckWhere] decides: no parent row, or a closed parent. *)
Lemma parentCheckWhere_spec (wds : list Dependency) (ws : list Wisp) (w : Wisp) :
  parentCheckWhere wds ws w = true <-> noParentRow wds w \/ closedParent wds ws w.
Proof.
  unfold parentCheckWhere, noParentRow, closedParent.
  rewrite orb_true_iff, negb_true_iff, existsb_none, existsb_elem.
  split; (intros [H|H]; [by left | right]).
  - destruct H as (wd & Hwd & H). apply andb_true_iff in H as [Hpc H].
    apply existsb_elem in H as (parent & Hp & H).
    apply andb_true_iff in H as [Hid Hst].
    apply String.eqb_eq in Hid, Hst. exists wd, parent. done.
  - destruct H as (wd & parent & Hwd & Hpc & Hp & Hid & Hst).
    exists wd. split; [done|]. rewrite Hpc. simpl.
    apply existsb_elem. exists parent. split; [done|].
    rewrite Hid, Hst, !String.eqb_refl. done.
Qed.

(** A wisp whose parents are all still open fails the parent check. *)
Lemma parentStillOpen_blocks (wds : list Dependency) (ws : list Wisp) (w : Wisp) :
  parentStillOpen wds ws w -> parentCheckWhere wds ws w = false.
Proof.
  intros [(wd & Hwd & Hpc) Hopen].
  destruct (parentCheckWhere wds ws w) eqn:Hc; [|done].
  apply parentCheckWhere_spec in Hc as [Hno | (wd' & parent & H1 & H2 & H3 & H4 & H5)].
  - rewrite (Hno wd Hwd) in Hpc. discriminate.
  - exfalso. by eapply Hopen.
Qed.

Lemma updateWhere_lookup {A} (cond : A -> bool) (set : A -> A) (t : list A) (k : nat) :
  updateWhere cond set t !! k = (fun r => if cond r then set r else r) <$> t !! k.
Proof.
  unfold updateWhere. revert k. induction t as [|x t IH]; intros [|k]; simpl; done.
Qed.

Lemma wispIsOpen_spec (w : Wisp) :
  wispIsOpen w = true <->
  w_status w = "open" \/ w_status w = "hooked" \/ w_status w = "in_progress".
Proof.
  unfold wispIsOpen. rewrite !orb_true_iff, !String.eqb_eq. tauto.
Qed.

(** The reap statement, row by row: a row that differs afterwards was open,
    older than the cutoff and passed the parent check, and it is the same
    row closed at [NOW()]. *)
Lemma reap_rows (sqlNow cutoff : Z) (srv : Server) (dbName : string) (dryRun : bool)
  (db : Database) (ws : list Wisp) (wds : list Dependency) :
  srv !! dbName = Some db -> wisps db = Some ws -> wisp_dependencies db = Some wds ->
  exists db' ws',
    (reapWispsInDB sqlNow srv dbName cutoff dryRun).1 !! dbName = Some db'
    /\ wisps db' = Some ws'
    /\ wisp_dependencies db' = Some wds
    /\ forall k w, ws !! k = Some w ->
         ws' !! k = Some (if negb dryRun && reapWhere cutoff wds ws w
                          then closeWisp sqlNow w else w).
Proof.
  intros Hdb Hws Hwds. unfold reapWispsInDB. rewrite Hdb, Hws, Hwds.
  destruct dryRun; simpl.
  - exists db, ws. repeat split; try done.
  - eexists _, _. rewrite lookup_insert_eq. split; [reflexivity|].
    split; [|split].
    + destruct (0 <? _); reflexivity.
    + destruct (0 <? _); simpl; exact Hwds.
    + intros k w Hk. rewrite updateWhere_lookup, Hk. reflexivity.
Qed.


(** *** Batched deletes *)

Local Abbreviation wispAux :=
  [T_wisp_labels; T_wisp_comments; T_wisp_events; T_wisp_dependencies].

Local Abbreviation issueAux :=
  [T_labels; T_comments; T_events; T_dependencies].

Lemma deleteAux_wisp_tables (ids : list string) (db : Database) (wds : list Dependency) :
  wisp_dependencies db = Some wds ->
  let db1 := deleteAuxTables wispAux ids db in
  wisps db1 = wisps db
  /\ wisp_dependencies db1 = Some (keepDeps ids wds)
  /\ issueTables db1 = issueTables db
  /\ commits db1 = commits db.
Proof.
  intros Hwds. unfold deleteAuxTables, deleteAux, issueTables.
  destruct (wisp_labels db), (wisp_comments db), (wisp_events db); simpl;
    rewrite Hwds; simpl; done.
Qed.

Lemma deleteAux_issue_tables (ids : list string) (db : Database) (ls : list AuxRow) :
  labels db = Some ls ->
  let db1 := deleteAuxTables issueAux ids db in
  issues db1 = issues db
  /\ labels db1 = Some (keepAux ids ls)
  /\ wispTables db1 = wispTables db
  /\ commits db1 = commits db.
Proof.
  intros Hls. unfold deleteAuxTables, deleteAux, wispTables.
  rewrite Hls. simpl.
  destruct (comments db), (events db), (dependencies db); simpl; done.
Qed.

Lemma NoDup_fmap_filter {A B} (f : A -> B) (P : A -> Prop) `{forall x, Decision (P x)}
  (l : list A) :
  NoDup (f <$> l) -> NoDup (f <$> filter P l).
Proof.
  intros Hnd. eapply sublist_NoDup; [exact Hnd|]. apply fmap_sublist, sublist_filter.
Qed.

Lemma same_key {A B} (f : A -> B) (l : list A) (x y : A) :
  NoDup (f <$> l) -> x ∈ l -> y ∈ l -> f x = f y -> x = y.
Proof.
  induction l as [|z l IH]; intros Hnd Hx Hy Heq; [inversion Hx|].
  rewrite fmap_cons in Hnd. apply NoDup_cons in Hnd as [Hz Hnd].
  apply elem_of_cons in Hx as [->|Hx]; apply elem_of_cons in Hy as [->|Hy].
  - done.
  - exfalso. apply Hz. rewrite Heq. by apply list_elem_of_fmap_2.
  - exfalso. apply Hz. rewrite <- Heq. by apply list_elem_of_fmap_2.
  - by apply IH.
Qed.

(** Eligibility after a batch implies eligibility before it, for a wisp that
    the batch left in place. *)
Lemma purgeWhere_lift (cutoff : Z) (ids : list string) (ws : list Wisp)
  (wds : list Dependency) (w : Wisp) :
  inIds ids (w_id w) = false ->
  purgeWhere cutoff (keepDeps ids wds)
             (filter (fun w => inIds ids (w_id w) = false) ws) w = true ->
  purgeWhere cutoff wds ws w = true.
Proof.
  intros Hid. unfold purgeWhere. rewrite !andb_true_iff, !parentCheckWhere_spec.
  intros [Hrow Hpar]. split; [done|].
  destruct Hpar as [Hno | (wd & parent & Hwd & Hpc & Hp & Hpid & Hst)].
  - left. intros wd Hwd.
    destruct (isParentChildOf w wd) eqn:Hpc; [|done].
    rewrite <- (Hno wd); [done|].
    apply list_elem_of_filter. split; [|done].
    unfold isParentChildOf in Hpc. apply andb_true_iff in Hpc as [Hpc _].
    apply String.eqb_eq in Hpc. by rewrite Hpc.
  - right. exists wd, parent.
    apply list_elem_of_filter in Hwd as [_ Hwd].
    apply list_elem_of_filter in Hp as [_ Hp]. done.
Qed.

Lemma wispIdQuery_elem (cutoff : Z) (db : Database) (ws : list Wisp)
  (wds : list Dependency) (ids : list string) (id : string) :
  wisps db = Some ws -> wisp_dependencies db = Some wds ->
  wispIdQuery cutoff db = Some ids -> id ∈ ids ->
  exists w, w ∈ ws /\ w_id w = id /\ purgeWhere cutoff wds ws w = true.
Proof.
  intros Hws Hwds. unfold wispIdQuery. rewrite Hws, Hwds. simpl.
  intros [= <-] Hid.
  apply elem_of_take in Hid as (k & Hk & _). apply list_elem_of_lookup_2 in Hk.
  apply list_elem_of_In, in_map_iff in Hk as (w & Hw & Hin).
  apply list_elem_of_In, list_elem_of_filter in Hin as [He Hin]. eauto.
Qed.

(** The batches of the wisp purge delete eligible wisps only, and leave the
    issue tables and the commit log alone. *)
Lemma batch_wisps (cutoff : Z) (budget : nat) :
  forall (db : Database) (total : Z) (ws : list Wisp) (wds : list Dependency),
  wisps db = Some ws -> wisp_dependencies db = Some wds -> NoDup (w_id <$> ws) ->
  exists ws' wds',
    let db' := (batchDeleteRows budget (wispIdQuery cutoff) T_wisps wispAux db total).1.1 in
    wisps db' = Some ws' /\ wisp_dependencies db' = Some wds'
    /\ (forall w, w ∈ ws' -> w ∈ ws)
    /\ (forall w, w ∈ ws -> w ∉ ws' -> purgeWhere cutoff wds ws w = true)
    /\ issueTables db' = issueTables db
    /\ commits db' = commits db.
Proof.
  induction budget as [|budget IH]; intros db total ws wds Hws Hwds Hnd;
    cbn [batchDeleteRows].
  { exists ws, wds. cbn. repeat split; try done. }
  destruct (wispIdQuery cutoff db) as [ids|] eqn:Hq.
  2:{ exists ws, wds. cbn. repeat split; try done. }
  destruct (Nat.eqb (length ids) 0).
  { exists ws, wds. cbn. repeat split; try done. }
  destruct (deleteAux_wisp_tables ids db wds Hwds) as (A1 & A2 & A3 & A4).
  unfold deletePrimary. rewrite A1, Hws. cbn [mbind option_bind].
  set (db1 := deleteAuxTables wispAux ids db) in *.
  set (ws1 := filter (fun w => inIds ids (w_id w) = false) ws).
  assert (Hnd1 : NoDup (w_id <$> ws1)) by by apply NoDup_fmap_filter.
  destruct (IH (setWisps ws1 db1) (total + Z.of_nat (length ws - length ws1))
               ws1 (keepDeps ids wds) eq_refl A2 Hnd1)
    as (ws' & wds' & B1 & B2 & B3 & B4 & B5 & B6).
  exists ws', wds'. cbn zeta in *. repeat split; try done.
  - intros w Hw. apply B3 in Hw. by apply list_elem_of_filter in Hw as [_ Hw].
  - intros w Hw Hgone.
    destruct (inIds ids (w_id w)) eqn:Hin.
    + apply inIds_elem in Hin.
      destruct (wispIdQuery_elem cutoff db ws wds ids _ Hws Hwds Hq Hin)
        as (w' & Hw' & Hid & He).
      by rewrite (same_key w_id ws w w' Hnd Hw Hw' (eq_sym Hid)).
    + apply (purgeWhere_lift cutoff ids); [done|].
      apply B4; [|done]. by apply list_elem_of_filter.
  - rewrite B5. exact A3.
  - rewrite B6. exact A4.
Qed.


(** *** The batches come to an end *)

Lemma filter_drops {A} (P : A -> Prop) `{forall x, Decision (P x)} (l : list A) (x : A) :
  x ∈ l -> ~ P x -> (length (filter P l) < length l)%nat.
Proof.
  induction l as [|y l IH]; intros Hx Hnot; [inversion Hx|].
  rewrite filter_cons. apply elem_of_cons in Hx as [->|Hx].
  - rewrite decide_False by done. pose proof (length_filter P l). simpl. lia.
  - specialize (IH Hx Hnot). case_decide; simpl; lia.
Qed.

(** A budget above the number of wisps is never used up: the wisp purge
    ends on an empty SELECT, with no error. *)
Lemma batch_wisps_finishes (cutoff : Z) (budget : nat) :
  forall (db : Database) (total : Z) (ws : list Wisp) (wds : list Dependency),
  wisps db = Some ws -> wisp_dependencies db = Some wds ->
  (length ws < budget)%nat ->
  (batchDeleteRows budget (wispIdQuery cutoff) T_wisps wispAux db total).2 = None.
Proof.
  induction budget as [|budget IH]; intros db total ws wds Hws Hwds Hlen; [lia|].
  cbn [batchDeleteRows].
  destruct (wispIdQuery cutoff db) as [ids|] eqn:Hq.
  2:{ unfold wispIdQuery in Hq. rewrite Hws, Hwds in Hq. discriminate. }
  destruct ids as [|id ids]; [done|]. cbn [length Nat.eqb].
  destruct (deleteAux_wisp_tables (id :: ids) db wds Hwds) as (A1 & A2 & _).
  unfold deletePrimary. rewrite A1, Hws. cbn [mbind option_bind].
  eapply IH; [reflexivity | exact A2 |].
  destruct (wispIdQuery_elem cutoff db ws wds (id :: ids) id Hws Hwds Hq)
    as (w & Hw & Hid & _); [by left|].
  assert ((length (filter (fun w => inIds (id :: ids) (w_id w) = false) ws) < length ws)%nat);
    [|lia].
  apply (filter_drops _ ws w Hw).
  assert (inIds (id :: ids) (w_id w) = true); [|congruence].
  apply inIds_elem. rewrite Hid. by left.
Qed.

(** The wisp purge, row by row: what it takes away was closed before the
    delete cutoff and passed the parent check when the step began. *)
Lemma purge_rows (budget : nat) (deleteCutoff : Z) (srv : Server) (dbName : string)
  (dryRun : bool) (db : Database) (ws : list Wisp) (wds : list Dependency) :
  srv !! dbName = Some db -> wisps db = Some ws -> wisp_dependencies db = Some wds ->
  NoDup (w_id <$> ws) ->
  exists db' ws',
    (purgeClosedWispsInDB budget srv dbName deleteCutoff dryRun).1 !! dbName = Some db'
    /\ wisps db' = Some ws'
    /\ (forall w, w ∈ ws' -> w ∈ ws)
    /\ (forall w, w ∈ ws -> w ∉ ws' -> purgeWhere deleteCutoff wds ws w = true)
    /\ issueTables db' = issueTables db
    /\ (dryRun = true -> db' = db).
Proof.
  intros Hdb Hws Hwds Hnd. unfold purgeClosedWispsInDB. rewrite Hdb, Hws, Hwds.
  destruct (digestSum _ =? 0).
  { exists db, ws. cbn. repeat split; try done. }
  destruct dryRun.
  { exists db, ws. cbn. repeat split; try done. }
  destruct (batch_wisps deleteCutoff budget db 0 ws wds Hws Hwds Hnd)
    as (ws' & wds' & B1 & B2 & B3 & B4 & B5 & B6).
  cbn zeta in *.
  destruct (batchDeleteRows budget (wispIdQuery deleteCutoff) T_wisps _ db 0)
    as [[db1 totalDeleted] [err|]]; cbn [fst snd] in *.
  - exists db1, ws'. rewrite lookup_insert_eq. repeat split; try done.
  - eexists _, ws'. rewrite lookup_insert_eq. split; [reflexivity|].
    destruct (0 <? totalDeleted); cbn; repeat split; try done.
Qed.

(** With a budget above the number of wisps, the purge returns no error. *)
Lemma purge_within_budget (budget : nat) (deleteCutoff : Z) (srv : Server)
  (dbName : string) (dryRun : bool) (db : Database) (ws : list Wisp)
  (wds : list Dependency) :
  srv !! dbName = Some db -> wisps db = Some ws -> wisp_dependencies db = Some wds ->
  (length ws < budget)%nat ->
  (purgeClosedWispsInDB budget srv dbName deleteCutoff dryRun).2.2 = None.
Proof.
  intros Hdb Hws Hwds Hlen. unfold purgeClosedWispsInDB. rewrite Hdb, Hws, Hwds.
  destruct (digestSum _ =? 0); [done|]. destruct dryRun; [done|].
  pose proof (batch_wisps_finishes deleteCutoff budget db 0 ws wds Hws Hwds Hlen) as Hfin.
  destruct (batchDeleteRows budget (wispIdQuery deleteCutoff) T_wisps _ db 0)
    as [[db1 totalDeleted] [err|]]; cbn [fst snd] in *; done.
Qed.

Lemma purgeWhere_parent (cutoff : Z) (wds : list Dependency) (ws : list Wisp) (w : Wisp) :
  purgeWhere cutoff wds ws w = true ->
  w_status w = "closed" /\ ltNullable (w_closed_at w) cutoff = true
  /\ (noParentRow wds w \/ closedParent wds ws w).
Proof.
  unfold purgeWhere. rewrite !andb_true_iff, parentCheckWhere_spec, String.eqb_eq. tauto.
Qed.

Lemma reapWhere_parent (cutoff : Z) (wds : list Dependency) (ws : list Wisp) (w : Wisp) :
  reapWhere cutoff wds ws w = true ->
  wispIsOpen w = true /\ w_created_at w < cutoff
  /\ (noParentRow wds w \/ closedParent wds ws w).
Proof.
  unfold reapWhere. rewrite !andb_true_iff, parentCheckWhere_spec, Z.ltb_lt. tauto.
Qed.

(** *** The issue steps leave the wisp tables alone *)

Lemma deleteAux_issue_keeps_wisps (ids : list string) (db : Database) :
  wispTables (deleteAuxTables issueAux ids db) = wispTables db.
Proof.
  unfold deleteAuxTables, deleteAux, wispTables.
  destruct (labels db), (comments db), (events db), (dependencies db); cbn; done.
Qed.

Lemma batch_issues_keep_wisps (budget : nat) (idQuery : Database -> option (list string)) :
  forall (db : Database) (total : Z),
  wispTables (batchDeleteRows budget idQuery T_issues issueAux db total).1.1 = wispTables db.
Proof.
  induction budget as [|budget IH]; intros db total; cbn [batchDeleteRows]; [done|].
  destruct (idQuery db) as [ids|]; [|done].
  destruct (Nat.eqb (length ids) 0); [done|].
  pose proof (deleteAux_issue_keeps_wisps ids db) as Haux.
  unfold deletePrimary.
  destruct (issues (deleteAuxTables issueAux ids db)) as [is_|]; cbn [mbind option_bind].
  - rewrite IH. exact Haux.
  - exact Haux.
Qed.

Lemma purgeOldMail_keeps_wisps (budget : nat) (mailCutoff : Z) (srv : Server)
  (dbName : string) (db : Database) :
  srv !! dbName = Some db ->
  exists db',
    (purgeOldMailInDB budget srv dbName mailCutoff).1 !! dbName = Some db'
    /\ wispTables db' = wispTables db.
Proof.
  intros Hdb. unfold purgeOldMailInDB. rewrite Hdb.
  destruct (issues db) as [is_|]; [|by exists db].
  destruct (labels db) as [ls|]; [|by exists db].
  destruct (countWhere _ _ =? 0); [by exists db|].
  pose proof (batch_issues_keep_wisps budget (mailIdQuery mailCutoff) db 0) as Hb.
  destruct (batchDeleteRows budget (mailIdQuery mailCutoff) T_issues _ db 0)
    as [[db1 totalDeleted] [err|]]; cbn [fst snd] in *.
  - exists db1. by rewrite lookup_insert_eq.
  - eexists. rewrite lookup_insert_eq. split; [reflexivity|].
    by destruct (0 <? totalDeleted).
Qed.

Lemma autoClose_keeps_wisps (sqlNow staleCutoff : Z) (dryRun : bool) (srv : Server)
  (dbName : string) (db : Database) :
  srv !! dbName = Some db ->
  exists db',
    (autoCloseStaleIssuesInDB sqlNow srv dbName staleCutoff dryRun).1 !! dbName = Some db'
    /\ wispTables db' = wispTables db.
Proof.
  intros Hdb. unfold autoCloseStaleIssuesInDB. rewrite Hdb.
  destruct (issues db) as [is_|]; [|by exists db].
  destruct (dependencies db) as [deps|]; [|by exists db].
  destruct (countWhere _ _ =? 0); [by exists db|].
  destruct dryRun; [by exists db|].
  eexists. cbn. rewrite lookup_insert_eq. split; [reflexivity|].
  by destruct (0 <? _).
Qed.

(** C1. Parent-closure gating.  Take a database as it stands when a step
    of the cycle reaches it (wisp ids being its primary key).  Every wisp
    row that the reap UPDATE changes, and every wisp row that the purge
    deletes, then had no parent-child row in [wisp_dependencies] or had a
    parent wisp with status closed; a wisp that has a parent, none of whose
    parents is closed, is neither closed nor deleted; and the two remaining
    steps, mail purge and auto-close, do not write the wisp tables. *)
Theorem C1_parent_closure_gating (sqlNow cutoff deleteCutoff : Z) (budget : nat)
  (dryRun : bool) (srv : Server) (dbName : string) (db : Database)
  (ws : list Wisp) (wds : list Dependency) :
  srv !! dbName = Some db -> wisps db = Some ws -> wisp_dependencies db = Some wds ->
  NoDup (w_id <$> ws) ->
  (exists db' ws',
     (reapWispsInDB sqlNow srv dbName cutoff dryRun).1 !! dbName = Some db'
     /\ wisps db' = Some ws'
     /\ forall k w, ws !! k = Some w ->
          exists w', ws' !! k = Some w'
            /\ (w' <> w ->
                w' = closeWisp sqlNow w
                /\ (noParentRow wds w \/ closedParent wds ws w))
            /\ (parentStillOpen wds ws w -> w' = w))
  /\ (exists db' ws',
       (purgeClosedWispsInDB budget srv dbName deleteCutoff dryRun).1 !! dbName = Some db'
       /\ wisps db' = Some ws'
       /\ (forall w, w ∈ ws' -> w ∈ ws)
       /\ (forall w, w ∈ ws -> w ∉ ws' ->
            noParentRow wds w \/ closedParent wds ws w)
       /\ (forall w, w ∈ ws -> parentStillOpen wds ws w -> w ∈ ws'))
  /\ (forall mailCutoff, exists db',
       (purgeOldMailInDB budget srv dbName mailCutoff).1 !! dbName = Some db'
       /\ wispTables db' = wispTables db)
  /\ (forall staleCutoff, exists db',
       (autoCloseStaleIssuesInDB sqlNow srv dbName staleCutoff dryRun).1 !! dbName = Some db'
       /\ wispTables db' = wispTables db).
Proof.
  intros Hdb Hws Hwds Hnd.
  split; [|split; [|split; [intros c; by apply purgeOldMail_keeps_wisps
                          |intros c; by apply autoClose_keeps_wisps]]].
  - destruct (reap_rows sqlNow cutoff srv dbName dryRun db ws wds Hdb Hws Hwds)
      as (db' & ws' & H1 & H2 & _ & Hrows).
    exists db', ws'. repeat split; try done.
    intros k w Hk. eexists. split; [by apply Hrows|].
    destruct (negb dryRun && reapWhere cutoff wds ws w) eqn:Hc.
    + apply andb_true_iff in Hc as [_ Hc]. split.
      * intros _. split; [done|]. by apply reapWhere_parent in Hc as (_ & _ & Hc).
      * intros Hopen. apply parentStillOpen_blocks in Hopen.
        unfold reapWhere in Hc. rewrite Hopen, andb_false_r in Hc. discriminate.
    + split; [done|done].
  - destruct (purge_rows budget deleteCutoff srv dbName dryRun db ws wds Hdb Hws Hwds Hnd)
      as (db' & ws' & H1 & H2 & H3 & H4 & _).
    exists db', ws'. repeat split; try done.
    + intros w Hw Hgone. apply H4 in Hgone; [|done].
      by apply purgeWhere_parent in Hgone as (_ & _ & Hgone).
    + intros w Hw Hopen.
      destruct (decide (w ∈ ws')) as [|Hgone]; [done|].
      apply H4 in Hgone; [|done]. apply parentStillOpen_blocks in Hopen.
      unfold purgeWhere in Hgone. rewrite Hopen, andb_false_r in Hgone. discriminate.
Qed.


(** *** The mail purge *)

Lemma mailIdQuery_elem (cutoff : Z) (db : Database) (is_ : list Issue)
  (ls : list AuxRow) (ids : list string) (id : string) :
  issues db = Some is_ -> labels db = Some ls ->
  mailIdQuery cutoff db = Some ids -> id ∈ ids ->
  exists i, i ∈ is_ /\ i_id i = id /\ mailStatusAge cutoff i = true /\ isMail ls i.
Proof.
  intros His Hls. unfold mailIdQuery. rewrite His, Hls. simpl.
  intros [= <-] Hid.
  apply elem_of_take in Hid as (k & Hk & _). apply list_elem_of_lookup_2 in Hk.
  apply list_elem_of_In, in_flat_map in Hk as (i & Hi & Hin).
  destruct (mailStatusAge cutoff i) eqn:Hst; [|inversion Hin].
  apply in_map_iff in Hin as (l & <- & Hl).
  apply list_elem_of_In, list_elem_of_filter in Hl as [Hlab Hl].
  exists i. repeat split; try done; [by apply list_elem_of_In|].
  unfold isMessageLabelOf in Hlab. apply andb_true_iff in Hlab as [E1 E2].
  apply String.eqb_eq in E1, E2. exists l. done.
Qed.

Lemma isMail_keep (ids : list string) (ls : list AuxRow) (i : Issue) :
  isMail (keepAux ids ls) i -> isMail ls i.
Proof.
  intros (l & Hl & H). apply list_elem_of_filter in Hl as [_ Hl]. exists l. done.
Qed.

(** The batches of the mail purge delete closed, aged mail only, and leave
    the wisp tables alone. *)
Lemma batch_mail (cutoff : Z) (budget : nat) :
  forall (db : Database) (total : Z) (is_ : list Issue) (ls : list AuxRow),
  issues db = Some is_ -> labels db = Some ls -> NoDup (i_id <$> is_) ->
  exists is' ls',
    let db' := (batchDeleteRows budget (mailIdQuery cutoff) T_issues issueAux db total).1.1 in
    issues db' = Some is' /\ labels db' = Some ls'
    /\ (forall i, i ∈ is' -> i ∈ is_)
    /\ (forall i, i ∈ is_ -> i ∉ is' -> mailStatusAge cutoff i = true /\ isMail ls i)
    /\ wispTables db' = wispTables db.
Proof.
  induction budget as [|budget IH]; intros db total is_ ls His Hls Hnd;
    cbn [batchDeleteRows].
  { exists is_, ls. cbn. repeat split; try done. }
  destruct (mailIdQuery cutoff db) as [ids|] eqn:Hq.
  2:{ exists is_, ls. cbn. repeat split; try done. }
  destruct (Nat.eqb (length ids) 0).
  { exists is_, ls. cbn. repeat split; try done. }
  destruct (deleteAux_issue_tables ids db ls Hls) as (A1 & A2 & A3 & A4).
  unfold deletePrimary. rewrite A1, His. cbn [mbind option_bind].
  set (db1 := deleteAuxTables issueAux ids db) in *.
  set (is1 := filter (fun i => inIds ids (i_id i) = false) is_).
  assert (Hnd1 : NoDup (i_id <$> is1)) by by apply NoDup_fmap_filter.
  destruct (IH (setIssues is1 db1) (total + Z.of_nat (length is_ - length is1))
               is1 (keepAux ids ls) eq_refl A2 Hnd1)
    as (is' & ls' & B1 & B2 & B3 & B4 & B5).
  exists is', ls'. cbn zeta in *. repeat split; try done.
  - intros i Hi. apply B3 in Hi. by apply list_elem_of_filter in Hi as [_ Hi].
  - destruct (inIds ids (i_id i)) eqn:Hin.
    + apply inIds_elem in Hin.
      destruct (mailIdQuery_elem cutoff db is_ ls ids _ His Hls Hq Hin)
        as (i' & Hi' & Hid & He & _).
      by rewrite (same_key i_id is_ i i' Hnd H Hi' (eq_sym Hid)).
    + apply B4; [|done]. by apply list_elem_of_filter.
  - destruct (inIds ids (i_id i)) eqn:Hin.
    + apply inIds_elem in Hin.
      destruct (mailIdQuery_elem cutoff db is_ ls ids _ His Hls Hq Hin)
        as (i' & Hi' & Hid & _ & He).
      by rewrite (same_key i_id is_ i i' Hnd H Hi' (eq_sym Hid)).
    + apply (isMail_keep ids). apply B4; [|done]. by apply list_elem_of_filter.
  - rewrite B5. exact A3.
Qed.

(** A budget above the number of issues is never used up either. *)
Lemma batch_mail_finishes (cutoff : Z) (budget : nat) :
  forall (db : Database) (total : Z) (is_ : list Issue) (ls : list AuxRow),
  issues db = Some is_ -> labels db = Some ls ->
  (length is_ < budget)%nat ->
  (batchDeleteRows budget (mailIdQuery cutoff) T_issues issueAux db total).2 = None.
Proof.
  induction budget as [|budget IH]; intros db total is_ ls His Hls Hlen; [lia|].
  cbn [batchDeleteRows].
  destruct (mailIdQuery cutoff db) as [ids|] eqn:Hq.
  2:{ unfold mailIdQuery in Hq. rewrite His, Hls in Hq. discriminate. }
  destruct ids as [|id ids]; [done|]. cbn [length Nat.eqb].
  destruct (deleteAux_issue_tables (id :: ids) db ls Hls) as (A1 & A2 & _).
  unfold deletePrimary. rewrite A1, His. cbn [mbind option_bind].
  eapply IH; [reflexivity | exact A2 |].
  destruct (mailIdQuery_elem cutoff db is_ ls (id :: ids) id His Hls Hq)
    as (i & Hi & Hid & _); [by left|].
  assert ((length (filter (fun i => inIds (id :: ids) (i_id i) = false) is_) < length is_)%nat);
    [|lia].
  apply (filter_drops _ is_ i Hi).
  assert (inIds (id :: ids) (i_id i) = true); [|congruence].
  apply inIds_elem. rewrite Hid. by left.
Qed.

Lemma mailStatusAge_spec (cutoff : Z) (i : Issue) :
  mailStatusAge cutoff i = true <->
  i_status i = "closed" /\ exists closedAt, i_closed_at i = Some closedAt /\ closedAt < cutoff.
Proof.
  unfold mailStatusAge, ltNullable. rewrite andb_true_iff, String.eqb_eq.
  destruct (i_closed_at i) as [c|].
  - rewrite Z.ltb_lt. split; [intros [? ?]; eauto | intros [? (c' & [= <-] & ?)]; done].
  - split; [intros [_ ?]; done | intros [_ (c' & ? & _)]; done].
Qed.

(** The mail purge step on one database, row by row. *)
Lemma mail_rows (budget : nat) (mailCutoff : Z) (srv : Server) (dbName : string)
  (db : Database) (is_ : list Issue) (ls : list AuxRow) :
  srv !! dbName = Some db -> issues db = Some is_ -> labels db = Some ls ->
  NoDup (i_id <$> is_) ->
  exists db' is',
    (purgeOldMailInDB budget srv dbName mailCutoff).1 !! dbName = Some db'
    /\ issues db' = Some is'
    /\ (forall i, i ∈ is' -> i ∈ is_)
    /\ (forall i, i ∈ is_ -> i ∉ is' ->
         i_status i = "closed"
         /\ (exists closedAt, i_closed_at i = Some closedAt /\ closedAt < mailCutoff)
         /\ isMail ls i)
    /\ wispTables db' = wispTables db.
Proof.
  intros Hdb His Hls Hnd. unfold purgeOldMailInDB. rewrite Hdb, His, Hls.
  destruct (countWhere _ _ =? 0).
  { exists db, is_. cbn. repeat split; try done. }
  destruct (batch_mail mailCutoff budget db 0 is_ ls His Hls Hnd)
    as (is' & ls' & B1 & B2 & B3 & B4 & B5).
  cbn zeta in *.
  assert (B4' : forall i, i ∈ is_ -> i ∉ is' ->
                  i_status i = "closed"
                  /\ (exists closedAt, i_closed_at i = Some closedAt /\ closedAt < mailCutoff)
                  /\ isMail ls i).
  { intros i Hi Hgone. destruct (B4 i Hi Hgone) as [Hs Hm].
    apply mailStatusAge_spec in Hs as [? ?]. done. }
  destruct (batchDeleteRows budget (mailIdQuery mailCutoff) T_issues _ db 0)
    as [[db1 totalDeleted] [err|]]; cbn [fst snd] in *.
  - exists db1, is'. rewrite lookup_insert_eq. repeat split; try done; by apply B4'.
  - eexists _, is'. rewrite lookup_insert_eq. split; [reflexivity|].
    destruct (0 <? totalDeleted); cbn; repeat split; try done; by apply B4'.
Qed.

(** *** Auto-close *)

Lemma issueIsOpen_spec (i : Issue) :
  issueIsOpen i = true <-> i_status i = "open" \/ i_status i = "in_progress".
Proof. unfold issueIsOpen. rewrite orb_true_iff, !String.eqb_eq. tauto. Qed.

Lemma dependsOnOpen_elem (deps : list Dependency) (is_ : list Issue) (id : string) :
  id ∈ dependsOnOpen deps is_ <->
  exists d j, d ∈ deps /\ j ∈ is_ /\ issueIsOpen j = true
              /\ d_issue_id d = id /\ d_depends_on_id d = i_id j.
Proof.
  unfold dependsOnOpen. rewrite list_elem_of_In, in_map_iff. split.
  - intros (d & <- & Hd). apply list_elem_of_In, list_elem_of_filter in Hd as [He Hd].
    apply existsb_elem in He as (j & Hj & He). apply andb_true_iff in He as [E1 E2].
    apply String.eqb_eq in E1. exists d, j. done.
  - intros (d & j & Hd & Hj & Ho & <- & E). exists d. split; [done|].
    apply list_elem_of_In, list_elem_of_filter. split; [|done].
    apply existsb_elem. exists j. split; [done|]. by rewrite E, String.eqb_refl, Ho.
Qed.

Lemma blocksOpen_elem (deps : list Dependency) (is_ : list Issue) (id : string) :
  id ∈ blocksOpen deps is_ <->
  exists d j, d ∈ deps /\ j ∈ is_ /\ issueIsOpen j = true
              /\ d_depends_on_id d = id /\ d_issue_id d = i_id j.
Proof.
  unfold blocksOpen. rewrite list_elem_of_In, in_map_iff. split.
  - intros (d & <- & Hd). apply list_elem_of_In, list_elem_of_filter in Hd as [He Hd].
    apply existsb_elem in He as (j & Hj & He). apply andb_true_iff in He as [E1 E2].
    apply String.eqb_eq in E1. exists d, j. done.
  - intros (d & j & Hd & Hj & Ho & <- & E). exists d. split; [done|].
    apply list_elem_of_In, list_elem_of_filter. split; [|done].
    apply existsb_elem. exists j. split; [done|]. by rewrite E, String.eqb_refl, Ho.
Qed.

(** The stale-issue condition, in words. *)
Lemma staleWhere_spec (staleCutoff : Z) (deps : list Dependency) (is_ : list Issue)
  (i : Issue) :
  staleWhere staleCutoff deps is_ i = true <->
  (i_status i = "open" \/ i_status i = "in_progress")
  /\ i_updated_at i < staleCutoff
  /\ 1 < i_priority i
  /\ i_issue_type i <> "epic"
  /\ noActiveDependency deps is_ i.
Proof.
  unfold staleWhere.
  rewrite !andb_true_iff, !negb_true_iff, issueIsOpen_spec, !Z.ltb_lt, String.eqb_neq.
  assert (Hdep : inIds (dependsOnOpen deps is_) (i_id i) = false
                 /\ inIds (blocksOpen deps is_) (i_id i) = false
                 <-> noActiveDependency deps is_ i).
  { unfold noActiveDependency. split.
    - intros [H1 H2] d j Hd Hj Ho. split; intros [E1 E2].
      + assert (inIds (dependsOnOpen deps is_) (i_id i) = true); [|congruence].
        apply inIds_elem, dependsOnOpen_elem. exists d, j. done.
      + assert (inIds (blocksOpen deps is_) (i_id i) = true); [|congruence].
        apply inIds_elem, blocksOpen_elem. exists d, j. done.
    - intros H. split.
      + destruct (inIds (dependsOnOpen deps is_) (i_id i)) eqn:E; [|done].
        apply inIds_elem, dependsOnOpen_elem in E as (d & j & Hd & Hj & Ho & E1 & E2).
        destruct (H d j Hd Hj Ho) as [H1 _]. tauto.
      + destruct (inIds (blocksOpen deps is_) (i_id i)) eqn:E; [|done].
        apply inIds_elem, blocksOpen_elem in E as (d & j & Hd & Hj & Ho & E1 & E2).
        destruct (H d j Hd Hj Ho) as [_ H2]. tauto. }
  tauto.
Qed.

Lemma countWhere_zero {A} (cond : A -> bool) (t : list A) :
  countWhere cond t = 0 -> forall r, r ∈ t -> cond r = false.
Proof.
  unfold countWhere. intros H r Hr.
  destruct (cond r) eqn:Hc; [|done].
  assert (Hin : r ∈ filter (fun r => cond r = true) t) by by apply list_elem_of_filter.
  destruct (filter _ t); [inversion Hin | simpl in H; lia].
Qed.

(** The auto-close step on one database, row by row. *)
Lemma autoClose_rows (sqlNow staleCutoff : Z) (srv : Server) (dbName : string)
  (dryRun : bool) (db : Database) (is_ : list Issue) (deps : list Dependency) :
  srv !! dbName = Some db -> issues db = Some is_ -> dependencies db = Some deps ->
  exists db' is',
    (autoCloseStaleIssuesInDB sqlNow srv dbName staleCutoff dryRun).1 !! dbName = Some db'
    /\ issues db' = Some is'
    /\ wispTables db' = wispTables db
    /\ (dryRun = true -> db' = db)
    /\ forall k i, is_ !! k = Some i ->
         is' !! k = Some (if negb dryRun && staleWhere staleCutoff deps is_ i
                          then closeIssue sqlNow i else i).
Proof.
  intros Hdb His Hdeps. unfold autoCloseStaleIssuesInDB. rewrite Hdb, His, Hdeps.
  destruct (countWhere _ _ =? 0) eqn:Hcount.
  { exists db, is_. cbn. repeat split; try done.
    intros k i Hk. apply Z.eqb_eq in Hcount.
    rewrite (countWhere_zero _ _ Hcount i) by by eapply list_elem_of_lookup_2.
    by rewrite andb_false_r. }
  destruct dryRun; cbn.
  { exists db, is_. repeat split; try done. }
  eexists _, _. rewrite lookup_insert_eq. split; [reflexivity|].
  destruct (0 <? _); cbn; repeat split; try done.
  - intros k i Hk. rewrite updateWhere_lookup, Hk. reflexivity.
  - intros k i Hk. rewrite updateWhere_lookup, Hk. reflexivity.
Qed.

(** C6. Every issue row that the auto-close step changes had priority
    greater than 1, an issue type other than epic, an [updated_at] before
    the stale cutoff and status open or in_progress, and no open or
    in-progress issue depended on it or was depended on by it, in the
    database as it stood when the UPDATE ran; the row is then the same
    issue closed at [NOW()]. *)
Theorem C6_auto_close_stale_only (sqlNow staleCutoff : Z) (dryRun : bool)
  (srv : Server) (dbName : string) (db : Database)
  (is_ : list Issue) (deps : list Dependency) :
  srv !! dbName = Some db -> issues db = Some is_ -> dependencies db = Some deps ->
  exists db' is',
    (autoCloseStaleIssuesInDB sqlNow srv dbName staleCutoff dryRun).1 !! dbName = Some db'
    /\ issues db' = Some is'
    /\ forall k i, is_ !! k = Some i ->
         exists i', is' !! k = Some i'
           /\ (i' <> i ->
               i' = closeIssue sqlNow i
               /\ 1 < i_priority i
               /\ i_issue_type i <> "epic"
               /\ i_updated_at i < staleCutoff
               /\ (i_status i = "open" \/ i_status i = "in_progress")
               /\ noActiveDependency deps is_ i).
Proof.
  intros Hdb His Hdeps.
  destruct (autoClose_rows sqlNow staleCutoff srv dbName dryRun db is_ deps Hdb His Hdeps)
    as (db' & is' & H1 & H2 & _ & _ & Hrows).
  exists db', is'. repeat split; try done.
  intros k i Hk. eexists. split; [by apply Hrows|].
  destruct (negb dryRun && staleWhere staleCutoff deps is_ i) eqn:Hc; [|done].
  apply andb_true_iff in Hc as [_ Hc]. apply staleWhere_spec in Hc.
  intros _. tauto.
Qed.


(** *** Each step touches the database it is given, and no other *)











(** The loop over the databases, for a body that is local in this sense. *)
Section ForEach.

Context {S : Type} (body : string -> Server -> S -> Server * S).

Hypothesis body_frame : forall dbName srv acc other,
  other <> dbName -> (body dbName srv acc).1 !! other = srv !! other.

Hypothesis body_agree : forall dbName srv srv2 acc,
  srv !! dbName = srv2 !! dbName ->
  (body dbName srv acc).2 = (body dbName srv2 acc).2
  /\ (body dbName srv acc).1 !! dbName = (body dbName srv2 acc).1 !! dbName.




End ForEach.


(** *** The loop bodies *)













(** *** The steps of a cycle *)






(** *** Dry run *)

(** The three steps that take the dry-run flag write nothing under it. *)
Lemma dry_run_steps_write_nothing (sqlNow cutoff : Z) (budget : nat)
  (srv : Server) (dbName : string) :
  (reapWispsInDB sqlNow srv dbName cutoff true).1 = srv
  /\ (purgeClosedWispsInDB budget srv dbName cutoff true).1 = srv
  /\ (autoCloseStaleIssuesInDB sqlNow srv dbName cutoff true).1 = srv.
Proof.
  unfold reapWispsInDB, purgeClosedWispsInDB, autoCloseStaleIssuesInDB.
  repeat split; repeat case_match; done.
Qed.

Section Cycle.

Variable ParseDuration : string -> option Z.


End Cycle.


(** *** Mail retention *)

(** C5, as it holds.  In the step-structured engine the default
    mail-delete-age is 7 days: the mail loop of [reaperPurge] runs with the
    cutoff [now - 7 days], and a row it removes was closed, carried the
    label gt:message, and had a [closed_at] before that cutoff.  In
    internal/daemon/wisp_reaper.go the default is 30 days: its cutoff is
    [now - 30 days], and a row it removes had a [closed_at] before that
    cutoff, hence more than 7 days in the past as well. *)
Theorem C5_mail_delete_age (env : Env) (srv : Server) (dbName : string)
  (db : Database) (is_ : list Issue) (ls : list AuxRow) :
  srv !! dbName = Some db -> issues db = Some is_ -> labels db = Some ls ->
  NoDup (i_id <$> is_) ->
  let sevenDays := 7 * (24 * Time.Hour) in
  let thirtyDays := 30 * (24 * Time.Hour) in
  (defaultMailDeleteAge = sevenDays
   /\ (forall rc srv0,
         reaperPurge env rc srv0
         = let '(srv1, (rc1, purgeErrors)) :=
             forEachDatabase (purgeBody env) (databases rc) srv0 (rc, 0) in
           let '(srv2, rc2) :=
             forEachDatabase (mailPurgeBody env (nowMail env - sevenDays))
                             (databases rc1) srv1 rc1 in
           (srv2, rc2, stepResult "purge" purgeErrors))
   /\ exists db' is',
        (purgeOldMailInDB (batchBudget env) srv dbName (nowMail env - sevenDays)).1
          !! dbName = Some db'
        /\ issues db' = Some is'
        /\ forall i, i ∈ is_ -> i ∉ is' ->
             i_status i = "closed" /\ isMail ls i
             /\ exists closedAt,
                  i_closed_at i = Some closedAt /\ closedAt < nowMail env - sevenDays)
  /\ (WispReaperGo.defaultMailDeleteAge = thirtyDays
      /\ WispReaperGo.mailCutoff env = nowMail env - thirtyDays
      /\ exists db' is',
           (purgeOldMailInDB (batchBudget env) srv dbName (WispReaperGo.mailCutoff env)).1
             !! dbName = Some db'
           /\ issues db' = Some is'
           /\ forall i, i ∈ is_ -> i ∉ is' ->
                i_status i = "closed" /\ isMail ls i
                /\ exists closedAt,
                     i_closed_at i = Some closedAt
                     /\ closedAt < nowMail env - thirtyDays
                     /\ closedAt < nowMail env - sevenDays).
Proof.
  intros Hdb His Hls Hnd sevenDays thirtyDays. split.
  - split; [reflexivity|]. split; [reflexivity|].
    destruct (mail_rows (batchBudget env) (nowMail env - sevenDays) srv dbName db is_ ls
                Hdb His Hls Hnd) as (db' & is' & H1 & H2 & _ & H4 & _).
    exists db', is'. repeat split; try done; by destruct (H4 i H H0) as (? & ? & ?).
  - split; [reflexivity|]. split; [reflexivity|].
    destruct (mail_rows (batchBudget env) (WispReaperGo.mailCutoff env) srv dbName db is_ ls
                Hdb His Hls Hnd) as (db' & is' & H1 & H2 & _ & H4 & _).
    exists db', is'. repeat split; try done;
      destruct (H4 i H H0) as (? & (c & Hc & Hlt) & ?); try done.
    exists c. split; [done|].
    change (WispReaperGo.mailCutoff env) with (nowMail env - thirtyDays) in Hlt.
    unfold thirtyDays, sevenDays, Time.Hour, Time.Minute, Time.Second, Time.Nanosecond in *.
    lia.
Qed.

End ReaperFacts.

(** *** The samples, run *)

Section Samples.

Import Reaper.

(** Seed scenario 3: the wisp with an open parent stays open, the orphan is
    closed. *)
Example reap_parent_gated :
  let run := reapWisps Sample.noDurations Sample.env (Sample.config false ["gastown"])
                       {[ "gastown" := Sample.wispDB ]} in
  wisps <$> run.1 !! "gastown"
  = Some (Some [Sample.w1; closeWisp Sample.now Sample.w2; Sample.parent]).
Proof. vm_compute. reflexivity. Qed.

(** Seed scenario 4: [A] (priority 0), [B] (blocked by [C]) and [C] (blocks
    [B]) stay open; [D] is closed. *)
Example auto_close_exclusions :
  let run := reapWisps Sample.noDurations Sample.env (Sample.config false ["beads"])
                       {[ "beads" := Sample.issueDB ]} in
  issues <$> run.1 !! "beads"
  = Some (Some [Sample.staleIssue "A" 0; Sample.staleIssue "B" 3; Sample.staleIssue "C" 3;
                closeIssue Sample.now (Sample.staleIssue "D" 3)]).
Proof. vm_compute. reflexivity. Qed.

(** C2: a dry-run cycle deletes mail.  With [dry_run] set, on a database
    [hq] that holds one gt:message issue closed eight days ago, the cycle
    deletes the issue and its label row and calls DOLT_COMMIT: the mail
    loop is not given the flag. *)
Theorem C2_dry_run_purges_mail :
  let srv : Server := {[ "hq" := Sample.mailDB (8 * Sample.day) ]} in
  let run := reapWisps Sample.noDurations Sample.env (Sample.config true ["hq"]) srv in
  issues <$> srv !! "hq" = Some (Some [Sample.message (8 * Sample.day)])
  /\ issues <$> run.1 !! "hq" = Some (Some [])
  /\ labels <$> run.1 !! "hq" = Some (Some [])
  /\ commits <$> run.1 !! "hq" = Some ["reaper: purge 1 old mail from hq"]
  /\ match run.2 with
     | Completed rc _ => dryRun rc = true /\ totalMailPurged rc = 1
     | _ => False
     end.
Proof. vm_compute. repeat split; reflexivity. Qed.

(** The same input through internal/daemon/wisp_reaper.go, with a message
    closed 31 days ago. *)
Example dry_run_purges_mail_wisp_reaper_go :
  let srv : Server := {[ "hq" := Sample.mailDB (31 * Sample.day) ]} in
  let run := WispReaperGo.reapWisps Sample.noDurations Sample.env
               (Sample.config true ["hq"]) srv in
  issues <$> run.1 !! "hq" = Some (Some [])
  /\ commits <$> run.1 !! "hq" = Some ["reaper: purge 1 old mail from hq"].
Proof. vm_compute. split; reflexivity. Qed.

(** C5, as stated, fails on internal/daemon/wisp_reaper.go: its default is
    30 days and its cutoff is [now - 30 days], so a message closed ten days
    ago, which the step-structured engine deletes, stays. *)
Lemma C5_counterexample :
  let srv : Server := {[ "hq" := Sample.mailDB (10 * Sample.day) ]} in
  let old := WispReaperGo.reapWisps Sample.noDurations Sample.env
               (Sample.config false ["hq"]) srv in
  let new := reapWisps Sample.noDurations Sample.env (Sample.config false ["hq"]) srv in
  WispReaperGo.defaultMailDeleteAge = 30 * Sample.day
  /\ WispReaperGo.mailCutoff Sample.env = Sample.now - 30 * Sample.day
  /\ issues <$> old.1 !! "hq" = Some (Some [Sample.message (10 * Sample.day)])
  /\ issues <$> new.1 !! "hq" = Some (Some []).
Proof. vm_compute. repeat split; reflexivity. Qed.

(** C5 on the sample mail database. *)
Lemma C5_mail_delete_age_witness :
  exists db' is',
    (purgeOldMailInDB 10 {[ "hq" := Sample.mailDB (8 * Sample.day) ]} "hq"
                      (Sample.now - 7 * (24 * Time.Hour))).1 !! "hq" = Some db'
    /\ issues db' = Some is'
    /\ forall i, i ∈ [Sample.message (8 * Sample.day)] -> i ∉ is' ->
         i_status i = "closed"
         /\ isMail [ {| a_issue_id := "hq-m1"; a_value := "gt:message" |} ] i
         /\ exists closedAt,
              i_closed_at i = Some closedAt
              /\ closedAt < Sample.now - 7 * (24 * Time.Hour).
Proof.
  refine (proj2 (proj2 (proj1
            (C5_mail_delete_age Sample.env {[ "hq" := Sample.mailDB (8 * Sample.day) ]} "hq"
               (Sample.mailDB (8 * Sample.day)) _ _ _ _ _ _)))).
  - reflexivity.
  - reflexivity.
  - reflexivity.
  - apply (bool_decide_unpack _). by vm_compute.
Defined.

(** C1 on seed scenario 3. *)
Lemma C1_parent_closure_gating_witness :
  exists db' ws',
    (reapWispsInDB Sample.now {[ "gastown" := Sample.wispDB ]} "gastown"
                   (Sample.now - Sample.day) false).1 !! "gastown" = Some db'
    /\ wisps db' = Some ws'
    /\ forall k w, [Sample.w1; Sample.w2; Sample.parent] !! k = Some w ->
         exists w', ws' !! k = Some w'
           /\ (w' <> w ->
               w' = closeWisp Sample.now w
               /\ (noParentRow [Sample.w1_parent] w
                   \/ closedParent [Sample.w1_parent]
                                   [Sample.w1; Sample.w2; Sample.parent] w))
           /\ (parentStillOpen [Sample.w1_parent]
                               [Sample.w1; Sample.w2; Sample.parent] w -> w' = w).
Proof.
  refine (proj1 (C1_parent_closure_gating Sample.now (Sample.now - Sample.day)
                   (Sample.now - 7 * Sample.day) 10 false
                   {[ "gastown" := Sample.wispDB ]} "gastown" Sample.wispDB _ _ _ _ _ _)).
  - reflexivity.
  - reflexivity.
  - reflexivity.
  - apply (bool_decide_unpack _). by vm_compute.
Defined.

(** C6 on seed scenario 4. *)
Lemma C6_auto_close_stale_only_witness :
  exists db' is',
    (autoCloseStaleIssuesInDB Sample.now {[ "beads" := Sample.issueDB ]} "beads"
                              (Sample.now - 30 * Sample.day) false).1 !! "beads" = Some db'
    /\ issues db' = Some is'
    /\ forall k i,
         [Sample.staleIssue "A" 0; Sample.staleIssue "B" 3;
          Sample.staleIssue "C" 3; Sample.staleIssue "D" 3] !! k = Some i ->
         exists i', is' !! k = Some i'
           /\ (i' <> i ->
               i' = closeIssue Sample.now i
               /\ 1 < i_priority i
               /\ i_issue_type i <> "epic"
               /\ i_updated_at i < Sample.now - 30 * Sample.day
               /\ (i_status i = "open" \/ i_status i = "in_progress")
               /\ noActiveDependency
                    [ {| d_issue_id := "B"; d_depends_on_id := "C"; d_type := "blocks" |} ]
                    [Sample.staleIssue "A" 0; Sample.staleIssue "B" 3;
                     Sample.staleIssue "C" 3; Sample.staleIssue "D" 3] i).
Proof.
  refine (C6_auto_close_stale_only Sample.now (Sample.now - 30 * Sample.day) false
            {[ "beads" := Sample.issueDB ]} "beads" Sample.issueDB _ _ _ _ _).
  - reflexivity.
  - reflexivity.
  - reflexivity.
Defined.


End Samples.
